(** * Ghostwriter AI: the revision / suggestion state machine of [App.tsx]

    A shallow embedding of the React component [App] (src/App.tsx) and of
    the service layer it awaits (services/geminiService.ts).

    Conventions of the embedding:
    - a JS [string] is the [string] of its UTF-8 bytes, so that equal
      strings are equal byte for byte; [.length], which counts UTF-16 code
      units, is [JS_length];
    - [Set<string>] is a [gset string];
    - [Date.now()] and [new Date()] are clock readings, passed in as [Z]
      (milliseconds); [Date.now().toString()] is the decimal [pretty];
    - every [useState] cell and every [useRef] cell is a field of [State];
      a setter call is a field update, and the functional form
      [setX(prev => e)] reads the field of the state it is applied to;
    - an [async] handler is an [Async] value: either it returned before
      its [await], or it issued one service call, with the state it left
      behind and the continuation that runs when the promise settles.  The
      continuation is closed over what the handler captured when it
      started and is applied to the state current at settlement;
    - [commit] is the effect with dependency list [[revisions.length]]. *)

From Stdlib Require Import ZArith Ascii.
From stdpp Require Import base decidable option list strings gmap pretty.

#[local] Open Scope string_scope.
#[local] Open Scope list_scope.
#[local] Open Scope nat_scope.

(** ** types.ts *)

Inductive Platform : Set := Generic | LinkedIn | Facebook | Reddit | Twitter.

Module Revision.
Record t : Set := mk
  { id : string; content : string; timestamp : Z; platform : Platform }.

(** [{ ...revision, content: c }] *)
Definition with_content (c : string) (r : t) : t :=
  {| id := id r; content := c; timestamp := timestamp r;
     platform := platform r |}.
End Revision.

Module Suggestion.
Record t : Set := mk
  { id : string; originalText : string; suggestedChange : string;
    reason : string }.
End Suggestion.

Module AttachedFile.
Record t : Set := mk { name : string; type : string; content : string }.
End AttachedFile.

(** ** Promises *)

(** How an awaited promise settles.  A rejection carries the thrown value;
    the handlers only log it. *)
Inductive Settled (A : Type) : Type :=
| Fulfilled (a : A)
| Rejected (e : string).
Arguments Fulfilled {A} a.
Arguments Rejected {A} e.

Definition settled_bind {A B} (p : Settled A) (f : A → Settled B) : Settled B :=
  match p with
  | Fulfilled a => f a
  | Rejected e => Rejected e
  end.

(** ** services/geminiService.ts *)

Module geminiService.

(** What [ai.models.generateContent] resolves to, as far as the service
    reads it. *)
Record GenerateContentResponse : Set := { text : string }.

(** A decoded element of the suggestion array, before it gets its id
    ([Omit<Suggestion, 'id'>]). *)
Record SuggestionData : Set :=
  { originalText : string; suggestedChange : string; reason : string }.

(** [generateInitialDraft]: awaits the model and returns [result.text];
    a rejection of the model call propagates to the caller. *)
Definition generateInitialDraft
    (result : Settled GenerateContentResponse) : Settled string :=
  settled_bind result (λ r, Fulfilled (text r)).

(** [applySuggestions]: the same shape, with another prompt. *)
Definition applySuggestions
    (result : Settled GenerateContentResponse) : Settled string :=
  settled_bind result (λ r, Fulfilled (text r)).

(** [suggestionsData.map((s, index) => ({ ...s, id: `${Date.now()}-${index}` }))];
    the clock is read once per element: [Date_now index] is the reading
    taken for that element. *)
Definition with_ids (Date_now : nat → Z) (l : list SuggestionData)
    : list Suggestion.t :=
  imap (λ index d,
          {| Suggestion.id := pretty (Date_now index) +:+ "-" +:+ pretty index;
             Suggestion.originalText := originalText d;
             Suggestion.suggestedChange := suggestedChange d;
             Suggestion.reason := reason d |}) l.

(** [generateSuggestions]: the whole body sits in a [try]; a rejected
    model call and a [JSON.parse] that throws ([None]) both end in the
    [catch], which returns the empty array. *)
Definition generateSuggestions
    (JSON_parse : string → option (list SuggestionData))
    (Date_now : nat → Z)
    (result : Settled GenerateContentResponse) : list Suggestion.t :=
  match result with
  | Fulfilled r =>
      match JSON_parse (text r) with
      | Some suggestionsData => with_ids Date_now suggestionsData
      | None => []
      end
  | Rejected _ => []
  end.

(** [s.split(sep)] for a separator of one character: the pieces between
    the occurrences of [sep], in order; a string without [sep] is the one
    piece. *)
Fixpoint String_split (sep : ascii) (s : string) : list string :=
  match s with
  | EmptyString => [EmptyString]
  | String c rest =>
      if decide (c = sep) then EmptyString :: String_split sep rest
      else
        match String_split sep rest with
        | piece :: pieces => String c piece :: pieces
        | [] => [String c EmptyString]
        end
  end.

(** The part [fileToGenerativePart] builds, [{ inlineData: { mimeType,
    data } }]; [data] is [None] where the source reads [undefined]. *)
Record InlineData : Set := { mimeType : string; data : option string }.

(** [fileToGenerativePart]: [file.content.split(',')[1]] is the second
    piece of the data URL, out of range when the content has no comma. *)
Definition fileToGenerativePart (file : AttachedFile.t) : InlineData :=
  {| mimeType := AttachedFile.type file;
     data := String_split ","%char (AttachedFile.content file) !! 1 |}.

End geminiService.

(** The three service functions [App] awaits, with the arguments it
    passes. *)
Inductive ServiceCall : Type :=
| generateInitialDraft
    (prompt : string) (files : list AttachedFile.t) (platform : Platform)
| generateSuggestions (documentContent : string) (platform : Platform)
| applySuggestions
    (documentContent : string) (suggestions : list Suggestion.t)
    (platform : Platform).

(** ** App.tsx: the component state *)

Record State : Type := mkState
  { revisions : list Revision.t;
    suggestions : list Suggestion.t;
    selectedSuggestions : gset string;
    isGeneratingDraft : bool;
    isFetchingSuggestions : bool;
    loadingMessage : string;
    error : option string;
    (* Undo/Redo State *)
    historyPast : list string;
    historyFuture : list string;
    lastSaveTimeRef : Z;
    prevRevisionsLengthRef : nat }.

(** The state of the first render. *)
Definition initialState : State :=
  {| revisions := []; suggestions := []; selectedSuggestions := ∅;
     isGeneratingDraft := false; isFetchingSuggestions := false;
     loadingMessage := ""; error := None;
     historyPast := []; historyFuture := [];
     lastSaveTimeRef := 0%Z; prevRevisionsLengthRef := 0 |}.

Definition setRevisions (v : list Revision.t) (s : State) : State :=
  mkState v (suggestions s) (selectedSuggestions s) (isGeneratingDraft s)
    (isFetchingSuggestions s) (loadingMessage s) (error s) (historyPast s)
    (historyFuture s) (lastSaveTimeRef s) (prevRevisionsLengthRef s).

Definition setSuggestions (v : list Suggestion.t) (s : State) : State :=
  mkState (revisions s) v (selectedSuggestions s) (isGeneratingDraft s)
    (isFetchingSuggestions s) (loadingMessage s) (error s) (historyPast s)
    (historyFuture s) (lastSaveTimeRef s) (prevRevisionsLengthRef s).

Definition setSelectedSuggestions (v : gset string) (s : State) : State :=
  mkState (revisions s) (suggestions s) v (isGeneratingDraft s)
    (isFetchingSuggestions s) (loadingMessage s) (error s) (historyPast s)
    (historyFuture s) (lastSaveTimeRef s) (prevRevisionsLengthRef s).

Definition setIsGeneratingDraft (v : bool) (s : State) : State :=
  mkState (revisions s) (suggestions s) (selectedSuggestions s) v
    (isFetchingSuggestions s) (loadingMessage s) (error s) (historyPast s)
    (historyFuture s) (lastSaveTimeRef s) (prevRevisionsLengthRef s).

Definition setIsFetchingSuggestions (v : bool) (s : State) : State :=
  mkState (revisions s) (suggestions s) (selectedSuggestions s)
    (isGeneratingDraft s) v (loadingMessage s) (error s) (historyPast s)
    (historyFuture s) (lastSaveTimeRef s) (prevRevisionsLengthRef s).

Definition setLoadingMessage (v : string) (s : State) : State :=
  mkState (revisions s) (suggestions s) (selectedSuggestions s)
    (isGeneratingDraft s) (isFetchingSuggestions s) v (error s)
    (historyPast s) (historyFuture s) (lastSaveTimeRef s)
    (prevRevisionsLengthRef s).

Definition setError (v : option string) (s : State) : State :=
  mkState (revisions s) (suggestions s) (selectedSuggestions s)
    (isGeneratingDraft s) (isFetchingSuggestions s) (loadingMessage s) v
    (historyPast s) (historyFuture s) (lastSaveTimeRef s)
    (prevRevisionsLengthRef s).

Definition setHistoryPast (v : list string) (s : State) : State :=
  mkState (revisions s) (suggestions s) (selectedSuggestions s)
    (isGeneratingDraft s) (isFetchingSuggestions s) (loadingMessage s)
    (error s) v (historyFuture s) (lastSaveTimeRef s)
    (prevRevisionsLengthRef s).

Definition setHistoryFuture (v : list string) (s : State) : State :=
  mkState (revisions s) (suggestions s) (selectedSuggestions s)
    (isGeneratingDraft s) (isFetchingSuggestions s) (loadingMessage s)
    (error s) (historyPast s) v (lastSaveTimeRef s)
    (prevRevisionsLengthRef s).

(** [lastSaveTimeRef.current = v] *)
Definition set_lastSaveTimeRef (v : Z) (s : State) : State :=
  mkState (revisions s) (suggestions s) (selectedSuggestions s)
    (isGeneratingDraft s) (isFetchingSuggestions s) (loadingMessage s)
    (error s) (historyPast s) (historyFuture s) v (prevRevisionsLengthRef s).

(** [prevRevisionsLengthRef.current = v] *)
Definition set_prevRevisionsLengthRef (v : nat) (s : State) : State :=
  mkState (revisions s) (suggestions s) (selectedSuggestions s)
    (isGeneratingDraft s) (isFetchingSuggestions s) (loadingMessage s)
    (error s) (historyPast s) (historyFuture s) (lastSaveTimeRef s) v.

(** State updates read left to right: [s ▹ f ▹ g] is [g (f s)]. *)
Notation "s ▹ f" := (f s) (at level 45, left associativity, only parsing).

(** [l.slice(0, -1)] *)
Definition slice_0_m1 {A} (l : list A) : list A := take (length l - 1) l.

(** [l.slice(1)] *)
Definition slice_1 {A} (l : list A) : list A := drop 1 l.

(** [revisions.length > 0 ? revisions[revisions.length - 1] : null] *)
Definition currentRevision (s : State) : option Revision.t :=
  if bool_decide (0 < length (revisions s))
  then revisions s !! (length (revisions s) - 1)
  else None.

(** ** JS strings *)

(** The UTF-16 code units a byte of a UTF-8 text accounts for: one for a
    byte that starts a character of one, two or three bytes, two for a
    byte that starts a character of four bytes (a surrogate pair in JS),
    none for a continuation byte. *)
Definition utf16_units (b : ascii) : nat :=
  let n := nat_of_ascii b in
  if bool_decide (n < 128) then 1
  else if bool_decide (n < 192) then 0
  else if bool_decide (n < 240) then 1
  else 2.

(** [s.length] *)
Fixpoint JS_length (s : string) : nat :=
  match s with
  | EmptyString => 0
  | String b rest => utf16_units b + JS_length rest
  end.

(** ** App.tsx: asynchronous handlers *)

(** An [async] handler with one [await].  [Return s]: it returned before
    awaiting anything, leaving [s].  [Await call s k]: it issued [call],
    left [s] behind, and [k r s'] is what the rest of the handler does to
    the state [s'] it finds when the promise has settled as [r]. *)
Inductive Async (A : Type) : Type :=
| Return (s : State)
| Await (call : ServiceCall) (s : State) (k : Settled A → State → State).
Arguments Return {A} s.
Arguments Await {A} call s k.

(** The service call a handler issues, if any. *)
Definition issued {A} (a : Async A) : option ServiceCall :=
  match a with
  | Return _ => None
  | Await call _ _ => Some call
  end.

(** The state once the handler is through, when nothing else touched the
    state while it was suspended. *)
Definition complete {A} (a : Async A) (r : Settled A) : State :=
  match a with
  | Return s => s
  | Await _ s k => k r s
  end.

(** The state a handler leaves behind when it suspends (or returns), and
    the rest of it, to be resumed on whatever state its promise settles
    on; a handler that returned has nothing left to do. *)
Definition suspended {A} (a : Async A) : State :=
  match a with
  | Return s => s
  | Await _ s _ => s
  end.

Definition continuation {A} (a : Async A) : Settled A → State → State :=
  match a with
  | Return _ => λ _ s', s'
  | Await _ _ k => k
  end.

(** [setRevisions(prev => f(prev))] and its likes. *)
Definition updRevisions (f : list Revision.t → list Revision.t) (s : State) :=
  setRevisions (f (revisions s)) s.
Definition updSelectedSuggestions (f : gset string → gset string) (s : State) :=
  setSelectedSuggestions (f (selectedSuggestions s)) s.
Definition updHistoryPast (f : list string → list string) (s : State) :=
  setHistoryPast (f (historyPast s)) s.
Definition updHistoryFuture (f : list string → list string) (s : State) :=
  setHistoryFuture (f (historyFuture s)) s.

Definition draftFailed : string :=
  "Failed to generate draft. Please check your API key and try again.".
Definition applyFailed : string :=
  "Failed to apply suggestions. Please try again.".

(** [handleGenerateDraft(prompt, files, platform)].  [Date_now] is the
    reading of [Date.now()] and [new_Date] that of [new Date()], both
    taken after the draft has arrived. *)
Definition handleGenerateDraft
    (prompt : string) (files : list AttachedFile.t) (platform : Platform)
    (Date_now new_Date : Z) (s : State) : Async string :=
  Await (generateInitialDraft prompt files platform)
    (s ▹ setIsGeneratingDraft true
       ▹ setLoadingMessage "Crafting your initial draft..."
       ▹ setError None)
    (λ r s',
       (match r with
        | Fulfilled content =>
            s' ▹ setRevisions
                   [Revision.mk (pretty Date_now) content new_Date platform]
               ▹ setSuggestions []
               ▹ setSelectedSuggestions ∅
        | Rejected _ => s' ▹ setError (Some draftFailed)
        end) ▹ setIsGeneratingDraft false).

(** [fetchSuggestions(revision)]; [None] is a falsy argument. *)
Definition fetchSuggestions (revision : option Revision.t) (s : State)
    : Async (list Suggestion.t) :=
  match revision with
  | None => Return s
  | Some revision =>
      if bool_decide (JS_length (Revision.content revision) < 50)
      then Return s
      else
        Await (generateSuggestions (Revision.content revision)
                 (Revision.platform revision))
          (s ▹ setIsFetchingSuggestions true)
          (λ r s',
             (match r with
              | Fulfilled newSuggestions => s' ▹ setSuggestions newSuggestions
              | Rejected _ => s'
              end) ▹ setIsFetchingSuggestions false)
  end.

(** [handleApplySuggestions()].  The continuation appends to the revisions
    it finds ([prev => [...prev, r]]) but takes the platform from the
    [currentRevision] the handler was started with. *)
Definition handleApplySuggestions (Date_now new_Date : Z) (s : State)
    : Async string :=
  if bool_decide (size (selectedSuggestions s) = 0) then Return s
  else
    match currentRevision s with
    | None => Return s
    | Some cur =>
        let suggestionsToApply :=
          filter (λ x, Suggestion.id x ∈ selectedSuggestions s)
            (suggestions s) in
        Await (applySuggestions (Revision.content cur) suggestionsToApply
                 (Revision.platform cur))
          (s ▹ setIsGeneratingDraft true
             ▹ setLoadingMessage "Weaving in your selected changes..."
             ▹ setError None)
          (λ r s',
             (match r with
              | Fulfilled newContent =>
                  s' ▹ updRevisions
                         (λ prev,
                            prev ++ [Revision.mk (pretty Date_now) newContent
                                       new_Date (Revision.platform cur)])
                     ▹ setSelectedSuggestions ∅
                     ▹ setSuggestions []
              | Rejected _ => s' ▹ setError (Some applyFailed)
              end) ▹ setIsGeneratingDraft false)
    end.

(** ** App.tsx: synchronous handlers *)

(** [handleToggleSuggestion(suggestionId)] *)
Definition handleToggleSuggestion (suggestionId : string) (s : State) : State :=
  s ▹ updSelectedSuggestions
        (λ prev,
           if bool_decide (suggestionId ∈ prev)
           then prev ∖ {[suggestionId]}
           else prev ∪ {[suggestionId]}).

(** [handleContentChange(newContent)]; [now] is the reading of
    [Date.now()].  The test is [now - lastSaveTimeRef.current > 1000]. *)
Definition handleContentChange (newContent : string) (now : Z) (s : State)
    : State :=
  match currentRevision s with
  | None => s
  | Some cur =>
      let s1 :=
        if bool_decide (1000 < now - lastSaveTimeRef s)%Z
        then s ▹ updHistoryPast (λ prev, prev ++ [Revision.content cur])
               ▹ setHistoryFuture []
               ▹ set_lastSaveTimeRef now
        else s in
      let updatedRevision := Revision.with_content newContent cur in
      s1 ▹ setRevisions (slice_0_m1 (revisions s) ++ [updatedRevision])
  end.

(** [handleUndo()].  The index [historyPast.length - 1] is in range once
    the guard has passed; the [None] branch of the lookup is never taken. *)
Definition handleUndo (s : State) : State :=
  if bool_decide (length (historyPast s) = 0) then s
  else
    match currentRevision s with
    | None => s
    | Some cur =>
        match historyPast s !! (length (historyPast s) - 1) with
        | None => s
        | Some previousContent =>
            let newPast := slice_0_m1 (historyPast s) in
            let updatedRevision := Revision.with_content previousContent cur in
            s ▹ updHistoryFuture (λ prev, Revision.content cur :: prev)
              ▹ setHistoryPast newPast
              ▹ setRevisions (slice_0_m1 (revisions s) ++ [updatedRevision])
        end
    end.

(** [handleRedo()], with [historyFuture[0]] in range likewise. *)
Definition handleRedo (s : State) : State :=
  if bool_decide (length (historyFuture s) = 0) then s
  else
    match currentRevision s with
    | None => s
    | Some cur =>
        match historyFuture s !! 0 with
        | None => s
        | Some nextContent =>
            let newFuture := slice_1 (historyFuture s) in
            let updatedRevision := Revision.with_content nextContent cur in
            s ▹ updHistoryPast (λ prev, prev ++ [Revision.content cur])
              ▹ setHistoryFuture newFuture
              ▹ setRevisions (slice_0_m1 (revisions s) ++ [updatedRevision])
        end
    end.

(** ** App.tsx: the history-reset effect *)

(** The body of the effect: "Reset undo history when a new revision is
    created by AI". *)
Definition resetHistoryEffect (s : State) : State :=
  if bool_decide (prevRevisionsLengthRef s < length (revisions s))
  then s ▹ setHistoryPast []
         ▹ setHistoryFuture []
         ▹ set_prevRevisionsLengthRef (length (revisions s))
  else s.

(** Whether React runs the effect after a render: its one dependency,
    [revisions.length], differs from the previous render's. *)
Definition effectRuns (before after : State) : bool :=
  bool_decide (length (revisions after) ≠ length (revisions before)).

(** The render that follows a batch of state updates: [before] is the
    state of the previous render, [after] the updated one. *)
Definition commit (before after : State) : State :=
  if effectRuns before after then resetHistoryEffect after else after.

(** A synchronous handler run from the state of a render, then committed. *)
Definition dispatch (h : State → State) (s : State) : State :=
  commit s (h s).

(** The continuation [k] of a suspended handler resumed on [s'] with the
    settled promise [r], then committed. *)
Definition settle {A} (k : Settled A → State → State) (r : Settled A)
    (s' : State) : State :=
  commit s' (k r s').

(** An asynchronous handler run from [s] to its end with nothing in
    between, then committed. *)
Definition dispatchAsync {A} (h : State → Async A) (r : Settled A) (s : State)
    : State :=
  commit s (complete (h s) r).

(** A run of manual edits: each pair is the new content of the text area
    and the clock reading of that [onChange]. *)
Fixpoint recordEdits (edits : list (string * Z)) (s : State) : State :=
  match edits with
  | [] => s
  | (newContent, now) :: rest =>
      recordEdits rest (dispatch (handleContentChange newContent now) s)
  end.

(** [spaced gap t0 ts]: the first reading of [ts] is [gap t0]-related to
    [t0] and every later one to the one before it. *)
Fixpoint spaced (gap : Z → Z → Prop) (t0 : Z) (ts : list Z) : Prop :=
  match ts with
  | [] => True
  | t :: rest => gap t0 t ∧ spaced gap t rest
  end.

(** At least 1000 ms after, and more than 1000 ms after. *)
Definition atLeast1000 (t0 t : Z) : Prop := (1000 ≤ t - t0)%Z.
Definition moreThan1000 (t0 t : Z) : Prop := (1000 < t - t0)%Z.

(** ** Reachable states *)

(** What can happen to the mounted component.  An asynchronous handler is
    taken from start to end in one step. *)
Inductive Event : Type :=
| GenerateDraft (prompt : string) (files : list AttachedFile.t)
    (platform : Platform) (Date_now new_Date : Z) (r : Settled string)
| SuggestionsTimer (r : Settled (list Suggestion.t))
| ApplySuggestions (Date_now new_Date : Z) (r : Settled string)
| ToggleSuggestion (suggestionId : string)
| ContentChange (newContent : string) (now : Z)
| Undo
| Redo
| DismissError.

(** [revisions.length === 0 ? <InitialScreen .../> : <EditorView .../>]:
    the draft form exists only while there is no revision, the editor only
    once there is one.  The timer and the error button are always there. *)
Definition offered (ev : Event) (s : State) : bool :=
  match ev with
  | GenerateDraft _ _ _ _ _ _ => bool_decide (length (revisions s) = 0)
  | SuggestionsTimer _ | DismissError => true
  | _ => bool_decide (length (revisions s) ≠ 0)
  end.

Definition step (ev : Event) (s : State) : State :=
  match ev with
  | GenerateDraft prompt files platform Date_now new_Date r =>
      dispatchAsync (handleGenerateDraft prompt files platform Date_now new_Date)
        r s
  | SuggestionsTimer r =>
      match currentRevision s with
      | Some cur => dispatchAsync (fetchSuggestions (Some cur)) r s
      | None => s
      end
  | ApplySuggestions Date_now new_Date r =>
      dispatchAsync (handleApplySuggestions Date_now new_Date) r s
  | ToggleSuggestion suggestionId =>
      dispatch (handleToggleSuggestion suggestionId) s
  | ContentChange newContent now =>
      dispatch (handleContentChange newContent now) s
  | Undo => dispatch handleUndo s
  | Redo => dispatch handleRedo s
  | DismissError => dispatch (setError None) s
  end.

Inductive reachable : State → Prop :=
| reachable_initial : reachable initialState
| reachable_step (ev : Event) (s : State) :
    reachable s → offered ev s = true → reachable (step ev s).

(** The handlers that rewrite the content of the current revision in
    place. *)
Inductive inPlace : (State → State) → Prop :=
| inPlace_change (newContent : string) (now : Z) :
    inPlace (handleContentChange newContent now)
| inPlace_undo : inPlace handleUndo
| inPlace_redo : inPlace handleRedo.

(** ** Derived notions *)

(** [s] has no occurrence of the character [c]. *)
Fixpoint lacks (c : ascii) (s : string) : Prop :=
  match s with
  | EmptyString => True
  | String x rest => x ≠ c ∧ lacks c rest
  end.

(** The texts the undo history ranges over, oldest first: the snapshots
    of the past stack, the live content, the future stack. *)
Definition timeline (s : State) : list string :=
  match currentRevision s with
  | Some cur => historyPast s ++ Revision.content cur :: historyFuture s
  | None => []
  end.

(** All revisions of the sequence carry the platform [p]. *)
Definition allOnPlatform (p : Platform) (s : State) : Prop :=
  Forall (λ r, Revision.platform r = p) (revisions s).

(** Everything but the draft form: the events of the editor screen, the
    timer and the error button. *)
Definition editorEvent (ev : Event) : bool :=
  match ev with
  | GenerateDraft _ _ _ _ _ _ => false
  | _ => true
  end.

(** What the user does on the editor screen without a service call:
    toggling, typing, undo, redo, closing the error box. *)
Definition userEvent (ev : Event) : bool :=
  match ev with
  | ToggleSuggestion _ | ContentChange _ _ | Undo | Redo | DismissError => true
  | _ => false
  end.

(** [flag] is a busy flag of the handler run [a]: raised when the call
    is issued, still raised after any user events that follow, and lowered
    by the run's own settlement, however the promise settles and whatever
    the state is it settles on. *)
Definition releases {A} (flag : State → bool) (a : Async A) : Prop :=
  match a with
  | Return _ => True
  | Await _ s1 k =>
      flag s1 = true
      ∧ (∀ evs, Forall (λ ev, userEvent ev = true) evs →
           flag (foldl (λ s ev, step ev s) s1 evs) = true)
      ∧ ∀ r s', flag (settle k r s') = false
  end.

(** A suggestion without its id, as it was decoded. *)
Definition without_id (x : Suggestion.t) : geminiService.SuggestionData :=
  {| geminiService.originalText := Suggestion.originalText x;
     geminiService.suggestedChange := Suggestion.suggestedChange x;
     geminiService.reason := Suggestion.reason x |}.

(** [canUndo={historyPast.length > 0}] and [canRedo={historyFuture.length > 0}],
    which enable the two toolbar buttons. *)
Definition canUndo (s : State) : bool := bool_decide (0 < length (historyPast s)).
Definition canRedo (s : State) : bool := bool_decide (0 < length (historyFuture s)).

(** ** Sample states *)

(** The state after a first draft has arrived: one revision, no
    suggestions, nothing selected, both stacks empty. *)
Definition afterDraft : State :=
  dispatchAsync
    (handleGenerateDraft "Write about X" [] Generic
       1700000000000 1700000000000)
    (Fulfilled "Once upon a time there was a draft about X, long enough to review.")
    initialState.

Definition suggestionA : Suggestion.t :=
  Suggestion.mk "1700000003000-0" "Once upon a time" "Long ago" "Shorter.".
Definition suggestionB : Suggestion.t :=
  Suggestion.mk "1700000009000-0" "a draft" "an essay" "More precise.".

(** The first batch has arrived and its one suggestion is selected. *)
Definition afterSelect : State :=
  dispatch (handleToggleSuggestion "1700000003000-0")
    (dispatchAsync (fetchSuggestions (currentRevision afterDraft))
       (Fulfilled [suggestionA]) afterDraft).

(** The state in [afterSelect] once the user has typed into the draft. *)
Definition afterEdit : State :=
  dispatch
    (handleContentChange
       "Once upon a time there was a draft about X; it is now edited by hand."
       1700000005000)
    afterSelect.

(** A revision below the suggestion threshold. *)
Definition shortRevision : Revision.t :=
  Revision.mk "1700000000000" "Forty characters of text, no more, okay."
    1700000000000 Twitter.

(** A revision of 25 accented letters: 25 code units in 50 bytes. *)
Definition accentedRevision : Revision.t :=
  Revision.mk "1700000000000" "ééééééééééééééééééééééééé" 1700000000000 Generic.

(** Two edits exactly 1000 ms apart. *)
Definition editsAt1000 : list (string * Z) :=
  [("b", 1700000005000%Z); ("c", 1700000006000%Z)].

(** An id of no suggestion in the batch is toggled. *)
Definition staleToggled : State :=
  dispatch (handleToggleSuggestion "stale-7") afterSelect.

(** The model answers the draft request with empty text. *)
Definition emptyDraft : State :=
  dispatchAsync
    (handleGenerateDraft "Write about X" [] Generic
       1700000000000 1700000000000)
    (geminiService.generateInitialDraft
       (Fulfilled {| geminiService.text := "" |}))
    initialState.

(** *** Two drafts in flight

    The draft form is submitted twice before the first answer is back
    (nothing disables it while a draft is out), once for LinkedIn and once
    for Twitter.  The first answer arrives, the user selects a suggestion
    and merges it; then the second answer arrives. *)

Definition firstDraftRun : Async string :=
  handleGenerateDraft "Write about X" [] LinkedIn
    1700000000000 1700000000000 initialState.

Definition secondDraftRun : Async string :=
  handleGenerateDraft "Write about X" [] Twitter
    1700000030000 1700000030000
    (commit initialState (suspended firstDraftRun)).

(** Both calls are out. *)
Definition bothDraftsOut : State :=
  commit (commit initialState (suspended firstDraftRun))
    (suspended secondDraftRun).

(** The first answer is back, a batch has been fetched, its suggestion
    selected and merged: two revisions. *)
Definition firstDraftMerged : State :=
  dispatchAsync (handleApplySuggestions 1700000010000 1700000010001)
    (Fulfilled "Long ago there was a draft about X, long enough to review twice.")
    (dispatch (handleToggleSuggestion "1700000003000-0")
       (dispatchAsync
          (fetchSuggestions
             (currentRevision
                (settle (continuation firstDraftRun)
                   (Fulfilled "Once upon a time there was a draft about X, long enough to review.")
                   bothDraftsOut)))
          (Fulfilled [suggestionA])
          (settle (continuation firstDraftRun)
             (Fulfilled "Once upon a time there was a draft about X, long enough to review.")
             bothDraftsOut))).

(** The second answer is back: it replaces the sequence by its one
    revision. *)
Definition secondDraftLanded : State :=
  settle (continuation secondDraftRun)
    (Fulfilled "X in brief: a second draft, short and sharp, but long enough.")
    firstDraftMerged.

(** The user edits the second draft, a batch arrives for it and its
    suggestion is selected. *)
Definition secondDraftEdited : State :=
  dispatch (handleToggleSuggestion "1700000040000-0")
    (dispatchAsync
       (fetchSuggestions
          (currentRevision
             (dispatch
                (handleContentChange
                   "X in brief: a second draft, short and sharp, and now edited."
                   1700000035000)
                secondDraftLanded)))
       (Fulfilled
          [Suggestion.mk "1700000040000-0" "short and sharp" "crisp" "Shorter."])
       (dispatch
          (handleContentChange
             "X in brief: a second draft, short and sharp, and now edited."
             1700000035000)
          secondDraftLanded)).

(** That suggestion is merged: the sequence grows from one revision to
    two. *)
Definition secondDraftMerged : State :=
  dispatchAsync (handleApplySuggestions 1700000050000 1700000050001)
    (Fulfilled "X in brief: a second draft, crisp, and now edited.")
    secondDraftEdited.

(** * Properties *)

(** ** Lists and the current revision *)

Lemma slice_0_m1_snoc {A} (l : list A) (x : A) : slice_0_m1 (l ++ [x]) = l.
Proof.
  unfold slice_0_m1. rewrite length_app. simpl.
  replace (length l + 1 - 1) with (length l) by lia.
  apply take_app_length.
Qed.

Lemma currentRevision_last (s : State) : currentRevision s = last (revisions s).
Proof.
  unfold currentRevision. rewrite last_lookup, Nat.sub_1_r.
  case_bool_decide as Hlen; [done |].
  destruct (revisions s); [done | simpl in Hlen; lia].
Qed.

Lemma currentRevision_Some (s : State) (cur : Revision.t) :
  currentRevision s = Some cur ↔ ∃ init, revisions s = init ++ [cur].
Proof. rewrite currentRevision_last. apply last_Some. Qed.

Lemma currentRevision_None (s : State) :
  currentRevision s = None ↔ revisions s = [].
Proof. rewrite currentRevision_last. apply last_None. Qed.

(** ** The effect and the render *)

Lemma commit_same_length (before after : State) :
  length (revisions after) = length (revisions before) →
  effectRuns before after = false ∧ commit before after = after.
Proof.
  intros Hlen. unfold commit, effectRuns.
  rewrite bool_decide_eq_false_2 by (intros Hne; apply Hne, Hlen). done.
Qed.

Lemma commit_longer (before after : State) :
  prevRevisionsLengthRef after ≤ length (revisions before) →
  length (revisions before) < length (revisions after) →
  commit before after =
    after ▹ setHistoryPast [] ▹ setHistoryFuture []
          ▹ set_prevRevisionsLengthRef (length (revisions after)).
Proof.
  intros Href Hlt. unfold commit, effectRuns, resetHistoryEffect.
  rewrite bool_decide_eq_true_2 by lia.
  rewrite bool_decide_eq_true_2 by lia. done.
Qed.

(** Neither the effect nor the render touches anything but the two stacks
    and the length ref. *)
Lemma commit_frame (before after : State) :
  let t := commit before after in
  revisions t = revisions after ∧ suggestions t = suggestions after
  ∧ selectedSuggestions t = selectedSuggestions after
  ∧ error t = error after ∧ lastSaveTimeRef t = lastSaveTimeRef after.
Proof.
  unfold commit, resetHistoryEffect.
  destruct (effectRuns before after); [case_bool_decide |]; done.
Qed.

(** ** Manual edits never change the length of the sequence *)

Lemma handleContentChange_Some (newContent : string) (now : Z) (s : State)
    (init : list Revision.t) (cur : Revision.t) :
  revisions s = init ++ [cur] →
  handleContentChange newContent now s =
    (if bool_decide (1000 < now - lastSaveTimeRef s)%Z
     then s ▹ setHistoryPast (historyPast s ++ [Revision.content cur])
            ▹ setHistoryFuture []
            ▹ set_lastSaveTimeRef now
     else s)
    ▹ setRevisions (init ++ [Revision.with_content newContent cur]).
Proof.
  intros Hrev. unfold handleContentChange.
  rewrite (proj2 (currentRevision_Some s cur)) by eauto.
  rewrite Hrev, slice_0_m1_snoc. done.
Qed.

Lemma handleContentChange_length (newContent : string) (now : Z) (s : State) :
  length (revisions (handleContentChange newContent now s))
  = length (revisions s).
Proof.
  destruct (currentRevision s) as [cur|] eqn:Hcur.
  - apply currentRevision_Some in Hcur as [init Hrev].
    rewrite (handleContentChange_Some _ _ _ _ _ Hrev), Hrev.
    simpl. by rewrite !length_app.
  - unfold handleContentChange. by rewrite Hcur.
Qed.

Lemma handleUndo_Some (s : State) (init : list Revision.t) (cur : Revision.t)
    (past : list string) (previousContent : string) :
  revisions s = init ++ [cur] →
  historyPast s = past ++ [previousContent] →
  handleUndo s =
    s ▹ setHistoryFuture (Revision.content cur :: historyFuture s)
      ▹ setHistoryPast past
      ▹ setRevisions (init ++ [Revision.with_content previousContent cur]).
Proof.
  intros Hrev Hpast. unfold handleUndo.
  rewrite (proj2 (currentRevision_Some s cur)) by eauto.
  rewrite Hrev, Hpast, !slice_0_m1_snoc.
  rewrite bool_decide_eq_false_2 by (rewrite length_app; simpl; lia).
  rewrite length_app. simpl.
  replace (length past + 1 - 1) with (length past + 0) by lia.
  rewrite lookup_app_r, Nat.add_0_r, Nat.sub_diag by lia. simpl.
  done.
Qed.

Lemma handleUndo_length (s : State) :
  length (revisions (handleUndo s)) = length (revisions s).
Proof.
  destruct (currentRevision s) as [cur|] eqn:Hcur.
  - apply currentRevision_Some in Hcur as [init Hrev].
    destruct (historyPast s) as [|x past] eqn:Hpast using rev_ind.
    + unfold handleUndo. by rewrite Hpast.
    + rewrite (handleUndo_Some _ _ _ _ _ Hrev Hpast), Hrev.
      simpl. by rewrite !length_app.
  - unfold handleUndo. rewrite Hcur. by case_bool_decide.
Qed.

Lemma handleRedo_Some (s : State) (init : list Revision.t) (cur : Revision.t)
    (nextContent : string) (future : list string) :
  revisions s = init ++ [cur] →
  historyFuture s = nextContent :: future →
  handleRedo s =
    s ▹ setHistoryPast (historyPast s ++ [Revision.content cur])
      ▹ setHistoryFuture future
      ▹ setRevisions (init ++ [Revision.with_content nextContent cur]).
Proof.
  intros Hrev Hfut. unfold handleRedo.
  rewrite (proj2 (currentRevision_Some s cur)) by eauto.
  rewrite Hrev, Hfut, slice_0_m1_snoc. done.
Qed.

Lemma handleRedo_length (s : State) :
  length (revisions (handleRedo s)) = length (revisions s).
Proof.
  destruct (currentRevision s) as [cur|] eqn:Hcur.
  - apply currentRevision_Some in Hcur as [init Hrev].
    destruct (historyFuture s) as [|x future] eqn:Hfut.
    + unfold handleRedo. by rewrite Hfut.
    + rewrite (handleRedo_Some _ _ _ _ _ Hrev Hfut), Hrev.
      simpl. by rewrite !length_app.
  - unfold handleRedo. rewrite Hcur. by case_bool_decide.
Qed.

Lemma dispatch_same_length (h : State → State) (s : State) :
  length (revisions (h s)) = length (revisions s) → dispatch h s = h s.
Proof. intros Hlen. apply commit_same_length, Hlen. Qed.

(** ** Undo and redo *)

(** C4.  With a current revision and a non-empty past stack, undo followed
    at once by redo leaves the current revision with exactly the content it
    had before the undo; the sequence and both stacks are as before too. *)
Theorem undo_redo_restores_content (s : State) (cur : Revision.t) :
  currentRevision s = Some cur →
  historyPast s ≠ [] →
  let t := dispatch handleRedo (dispatch handleUndo s) in
  Revision.content <$> currentRevision t = Some (Revision.content cur)
  ∧ t = s.
Proof.
  intros Hcur Hne.
  apply currentRevision_Some in Hcur as [init Hrev].
  destruct (historyPast s) as [|previousContent past _] eqn:Hpast using rev_ind;
    [done | clear Hne].
  rewrite (dispatch_same_length handleUndo) by apply handleUndo_length.
  rewrite (dispatch_same_length handleRedo) by apply handleRedo_length.
  rewrite (handleUndo_Some _ _ _ _ _ Hrev Hpast).
  erewrite handleRedo_Some by (simpl; reflexivity).
  simpl. split.
  - rewrite currentRevision_last. simpl. by rewrite last_snoc.
  - destruct s, cur; simpl in *. by subst.
Qed.

Lemma undo_redo_restores_content_witness :
  Revision.content <$>
    currentRevision
      (dispatch handleRedo
         (dispatch handleUndo
            (dispatch (handleContentChange "edited" 1700000005000) afterDraft)))
  = Some "edited".
Proof.
  refine (proj1 (undo_redo_restores_content
                   (dispatch (handleContentChange "edited" 1700000005000)
                      afterDraft)
                   (Revision.mk "1700000000000" "edited" 1700000000000 Generic)
                   _ _)).
  - vm_compute. reflexivity.
  - vm_compute. discriminate.
Defined.

(** ** Recording manual edits *)

Lemma handleContentChange_outside_window (newContent : string) (now : Z)
    (s : State) (cur : Revision.t) :
  currentRevision s = Some cur →
  (1000 < now - lastSaveTimeRef s)%Z →
  let t := dispatch (handleContentChange newContent now) s in
  historyPast t = historyPast s ++ [Revision.content cur]
  ∧ historyFuture t = []
  ∧ lastSaveTimeRef t = now
  ∧ currentRevision t = Some (Revision.with_content newContent cur).
Proof.
  intros Hcur Hgap.
  rewrite dispatch_same_length by apply handleContentChange_length.
  apply currentRevision_Some in Hcur as [init Hrev].
  rewrite (handleContentChange_Some _ _ _ _ _ Hrev).
  rewrite bool_decide_eq_true_2 by done. simpl.
  rewrite currentRevision_last. simpl. by rewrite last_snoc.
Qed.

Lemma handleContentChange_inside_window (newContent : string) (now : Z)
    (s : State) (cur : Revision.t) :
  currentRevision s = Some cur →
  (now - lastSaveTimeRef s ≤ 1000)%Z →
  let t := dispatch (handleContentChange newContent now) s in
  historyPast t = historyPast s
  ∧ historyFuture t = historyFuture s
  ∧ lastSaveTimeRef t = lastSaveTimeRef s
  ∧ currentRevision t = Some (Revision.with_content newContent cur).
Proof.
  intros Hcur Hgap.
  rewrite dispatch_same_length by apply handleContentChange_length.
  apply currentRevision_Some in Hcur as [init Hrev].
  rewrite (handleContentChange_Some _ _ _ _ _ Hrev).
  rewrite bool_decide_eq_false_2 by lia. simpl.
  rewrite currentRevision_last. simpl. by rewrite last_snoc.
Qed.

Lemma recordEdits_inside_window (edits : list (string * Z)) (s : State) :
  is_Some (currentRevision s) →
  Forall (λ e, (e.2 - lastSaveTimeRef s ≤ 1000)%Z) edits →
  let t := recordEdits edits s in
  historyPast t = historyPast s
  ∧ historyFuture t = historyFuture s
  ∧ lastSaveTimeRef t = lastSaveTimeRef s
  ∧ is_Some (currentRevision t)
  ∧ (∀ c, last (edits.*1) = Some c →
       Revision.content <$> currentRevision t = Some c).
Proof.
  revert s. induction edits as [|[newContent now] rest IH]; intros s Hcur Hin.
  - simpl. by repeat split.
  - destruct Hcur as [cur Hcur]. apply Forall_cons in Hin as [Hgap Hin].
    destruct (handleContentChange_inside_window newContent now s cur Hcur Hgap)
      as (Hpast & Hfut & Hlast & Hcur').
    destruct (IH (dispatch (handleContentChange newContent now) s))
      as (Hp & Hf & Hl & Hsome & Hc).
    { by eexists. }
    { by rewrite Hlast. }
    simpl in *. rewrite Hp, Hf, Hl, Hpast, Hfut, Hlast.
    do 4 (split; [done |]). intros c Hc'.
    destruct rest as [|e rest]; [| by apply Hc].
    simpl in *. injection Hc' as <-. by rewrite Hcur'.
Qed.

(** C2, at a failing input.  A draft is edited (snapshot pushed at
    ...5000), the edit is undone, and 400 ms after the snapshot the user
    types again: the redo stack still holds the undone text, and redo then
    replaces what was just typed with it. *)
Theorem edit_inside_window_keeps_future :
  let undone :=
    dispatch handleUndo
      (dispatch (handleContentChange "first edit" 1700000005000) afterDraft) in
  let typed := dispatch (handleContentChange "typed anew" 1700000005400) undone in
  historyFuture undone = ["first edit"]
  ∧ historyFuture typed = ["first edit"]
  ∧ Revision.content <$> currentRevision typed = Some "typed anew"
  ∧ Revision.content <$> currentRevision (dispatch handleRedo typed)
    = Some "first edit".
Proof. vm_compute. done. Qed.

(** C6 as stated fails: two edits exactly 1000 ms apart, the first of
    them well after the last snapshot, push one snapshot, not two. *)
Lemma recordEdits_exactly_1000_apart :
  is_Some (currentRevision afterDraft)
  ∧ historyPast afterDraft = []
  ∧ spaced atLeast1000 (lastSaveTimeRef afterDraft) (editsAt1000.*2)
  ∧ length (historyPast (recordEdits editsAt1000 afterDraft)) = 1
  ∧ length (historyPast (recordEdits editsAt1000 afterDraft))
    ≠ length editsAt1000.
Proof.
  split; [by eexists |]. split; [done |].
  split; [vm_compute; intuition discriminate |].
  split; [by vm_compute | vm_compute; lia].
Qed.

(** C6, amended.  With a current revision: a run of edits in which each
    comes more than 1000 ms after the one before (the first more than
    1000 ms after the last snapshot) pushes one snapshot per edit.  A push
    records its time, and the window is measured from it: an edit that
    pushes, followed by edits each at most 1000 ms after it (exactly
    1000 ms included), grows the past stack by that one snapshot only,
    while the live content follows every edit.  Likewise an edit at most
    1000 ms after the last snapshot of the state pushes none, and still
    updates the live content. *)
Theorem recordEdits_throttle (s : State) :
  is_Some (currentRevision s) →
  (∀ edits : list (string * Z),
     spaced moreThan1000 (lastSaveTimeRef s) (edits.*2) →
     length (historyPast (recordEdits edits s))
     = length (historyPast s) + length edits)
  ∧ (∀ (newContent : string) (now : Z) (rest : list (string * Z)),
       (1000 < now - lastSaveTimeRef s)%Z →
       Forall (λ e, (e.2 - now ≤ 1000)%Z) rest →
       let t := recordEdits ((newContent, now) :: rest) s in
       length (historyPast t) = S (length (historyPast s))
       ∧ lastSaveTimeRef t = now
       ∧ Revision.content <$> currentRevision t = last (newContent :: rest.*1))
  ∧ (∀ (newContent : string) (now : Z),
       (now - lastSaveTimeRef s ≤ 1000)%Z →
       let t := dispatch (handleContentChange newContent now) s in
       historyPast t = historyPast s
       ∧ Revision.content <$> currentRevision t = Some newContent).
Proof.
  intros Hcur. split; [| split].
  - intros edits. revert s Hcur.
    induction edits as [|[newContent now] rest IH]; intros s [cur Hcur] Hsp.
    + simpl. lia.
    + destruct Hsp as [Hgap Hsp]. simpl in *.
      destruct (handleContentChange_outside_window newContent now s cur Hcur Hgap)
        as (Hpast & _ & Hlast & Hcur').
      rewrite IH.
      * rewrite Hpast, length_app. simpl. lia.
      * by eexists.
      * by rewrite Hlast.
  - intros newContent now rest Hgap Hin. destruct Hcur as [cur Hcur].
    destruct (handleContentChange_outside_window newContent now s cur Hcur Hgap)
      as (Hpast & _ & Hlast & Hcur').
    destruct (recordEdits_inside_window rest
                (dispatch (handleContentChange newContent now) s))
      as (Hp & _ & Hl & _ & Hc).
    { by eexists. }
    { by rewrite Hlast. }
    simpl in *. rewrite Hp, Hl, Hpast, Hlast, length_app. simpl.
    split; [lia |]. split; [done |].
    destruct (last (rest.*1)) as [c|] eqn:Hlastc.
    + rewrite (Hc c eq_refl). symmetry.
      destruct (rest.*1) as [|x l]; [done |]. exact Hlastc.
    + apply last_None in Hlastc. rewrite Hlastc. simpl.
      apply fmap_nil_inv in Hlastc as ->. simpl. by rewrite Hcur'.
  - intros newContent now Hgap. destruct Hcur as [cur Hcur].
    destruct (handleContentChange_inside_window newContent now s cur Hcur Hgap)
      as (Hpast & _ & _ & Hcur').
    simpl. by rewrite Hpast, Hcur'.
Qed.

Lemma recordEdits_throttle_witness :
  length (historyPast
            (recordEdits [("b", 1700000005000%Z); ("c", 1700000006001%Z)]
               afterDraft)) = 2
  ∧ (length (historyPast
               (recordEdits
                  [("b", 1700000005000%Z); ("bc", 1700000005100%Z);
                   ("bcd", 1700000005200%Z); ("bcde", 1700000006000%Z)]
                  afterDraft)) = 1
     ∧ lastSaveTimeRef
         (recordEdits
            [("b", 1700000005000%Z); ("bc", 1700000005100%Z);
             ("bcd", 1700000005200%Z); ("bcde", 1700000006000%Z)]
            afterDraft) = 1700000005000%Z)
  ∧ historyPast (dispatch (handleContentChange "b" 1000) afterDraft) = [].
Proof.
  assert (Hcur : is_Some (currentRevision afterDraft)) by (by eexists).
  destruct (recordEdits_throttle afterDraft Hcur) as (Hrun & Hburst & Hone).
  split; [| split].
  - apply (Hrun [("b", 1700000005000%Z); ("c", 1700000006001%Z)]).
    vm_compute. intuition.
  - destruct (Hburst "b" 1700000005000%Z
                [("bc", 1700000005100%Z); ("bcd", 1700000005200%Z);
                 ("bcde", 1700000006000%Z)])
      as (Hlen & Hlast & _).
    + vm_compute. reflexivity.
    + repeat constructor; vm_compute; discriminate.
    + split; [exact Hlen | exact Hlast].
  - apply (Hone "b" 1000%Z). vm_compute. discriminate.
Defined.

(** ** Applying the selected suggestions *)

Lemma size_0_empty (X : gset string) : size X = 0 ↔ X = ∅.
Proof. rewrite size_empty_iff. by unfold_leibniz. Qed.

(** Rewrites a started [handleApplySuggestions] to its [Await]. *)
Ltac apply_started Hcur Hsel :=
  unfold handleApplySuggestions;
  rewrite (bool_decide_eq_false_2 _ (λ H0, Hsel (proj1 (size_0_empty _) H0)));
  rewrite Hcur.

(** What the continuation of [handleApplySuggestions] does on the state
    [s'] it is resumed on. *)
Lemma handleApplySuggestions_settled (Date_now new_Date : Z) (s : State)
    (cur : Revision.t) :
  currentRevision s = Some cur →
  selectedSuggestions s ≠ ∅ →
  ∃ call s1 k,
    handleApplySuggestions Date_now new_Date s = Await call s1 k
    ∧ s1 = (s ▹ setIsGeneratingDraft true
              ▹ setLoadingMessage "Weaving in your selected changes..."
              ▹ setError None)
    ∧ (∀ e s', k (Rejected e) s' =
         s' ▹ setError (Some applyFailed) ▹ setIsGeneratingDraft false)
    ∧ (∀ newContent s', k (Fulfilled newContent) s' =
         s' ▹ setRevisions
                (revisions s' ++ [Revision.mk (pretty Date_now) newContent
                                    new_Date (Revision.platform cur)])
            ▹ setSelectedSuggestions ∅
            ▹ setSuggestions []
            ▹ setIsGeneratingDraft false).
Proof.
  intros Hcur Hsel. apply_started Hcur Hsel.
  eexists _, _, _. split; [reflexivity |]. done.
Qed.

(** C3.  With a current revision and a non-empty selection the handler
    reaches its merge call, and up to there the sequence, the batch and the
    selection are untouched.  If the call fails, they are also as the
    continuation found them and the error message is set; if it succeeds,
    one revision is appended and batch and selection are emptied. *)
Theorem applySelected_all_or_nothing (Date_now new_Date : Z) (s : State)
    (cur : Revision.t) :
  currentRevision s = Some cur →
  selectedSuggestions s ≠ ∅ →
  ∃ call s1 k,
    handleApplySuggestions Date_now new_Date s = Await call s1 k
    ∧ revisions s1 = revisions s
    ∧ suggestions s1 = suggestions s
    ∧ selectedSuggestions s1 = selectedSuggestions s
    ∧ (∀ e s',
         let t := settle k (Rejected e) s' in
         revisions t = revisions s'
         ∧ suggestions t = suggestions s'
         ∧ selectedSuggestions t = selectedSuggestions s'
         ∧ historyPast t = historyPast s'
         ∧ historyFuture t = historyFuture s'
         ∧ error t = Some applyFailed)
    ∧ (∀ newContent s',
         let t := settle k (Fulfilled newContent) s' in
         revisions t =
           revisions s' ++ [Revision.mk (pretty Date_now) newContent new_Date
                              (Revision.platform cur)]
         ∧ suggestions t = []
         ∧ selectedSuggestions t = ∅
         ∧ error t = error s').
Proof.
  intros Hcur Hsel.
  destruct (handleApplySuggestions_settled Date_now new_Date s cur Hcur Hsel)
    as (call & s1 & k & Hawait & -> & Hfail & Hok).
  eexists call, _, k. split; [done |]. do 3 (split; [done |]). split.
  - intros e s'. unfold settle. rewrite Hfail.
    match goal with
    | |- context [commit s' ?after] =>
        by rewrite (proj2 (commit_same_length s' after eq_refl))
    end.
  - intros newContent s'. unfold settle. rewrite Hok.
    destruct (commit_frame s'
                (s' ▹ setRevisions
                        (revisions s' ++ [Revision.mk (pretty Date_now)
                           newContent new_Date (Revision.platform cur)])
                    ▹ setSelectedSuggestions ∅
                    ▹ setSuggestions []
                    ▹ setIsGeneratingDraft false))
      as (-> & -> & -> & -> & _).
    done.
Qed.

Lemma applySelected_all_or_nothing_witness :
  ∃ call s1 k,
    handleApplySuggestions 1700000010000 1700000010001 afterSelect
    = Await call s1 k
    ∧ revisions (settle k (Rejected "503") s1) = revisions afterSelect
    ∧ suggestions (settle k (Rejected "503") s1) = [suggestionA]
    ∧ error (settle k (Rejected "503") s1) = Some applyFailed
    ∧ length (revisions (settle k (Fulfilled "Long ago...") s1)) = 2
    ∧ suggestions (settle k (Fulfilled "Long ago...") s1) = [].
Proof.
  destruct (applySelected_all_or_nothing 1700000010000 1700000010001 afterSelect
              (Revision.mk "1700000000000"
                 "Once upon a time there was a draft about X, long enough to review."
                 1700000000000 Generic))
    as (call & s1 & k & Hawait & Hrev & Hsug & _ & Hfail & Hok).
  - vm_compute. reflexivity.
  - intros Hempty. vm_compute in Hempty. discriminate Hempty.
  - exists call, s1, k. split; [exact Hawait |].
    destruct (Hfail "503" s1) as (Hr & Hs & _ & _ & _ & He).
    destruct (Hok "Long ago..." s1) as (Hr' & Hs' & _).
    split; [by rewrite Hr, Hrev |]. split; [by rewrite Hs, Hsug |].
    split; [exact He |]. split; [| exact Hs'].
    rewrite Hr', Hrev, length_app. reflexivity.
Defined.

(** C10.  When the merge succeeds, the sequence is the old one followed by
    one new revision: every earlier revision is where it was, field for
    field, and the new one has the platform of the revision it follows. *)
Theorem applySelected_frame (Date_now new_Date : Z) (newContent : string)
    (s : State) (cur : Revision.t) :
  currentRevision s = Some cur →
  selectedSuggestions s ≠ ∅ →
  let t :=
    dispatchAsync (handleApplySuggestions Date_now new_Date)
      (Fulfilled newContent) s in
  ∃ new,
    revisions t = revisions s ++ [new]
    ∧ currentRevision t = Some new
    ∧ Revision.platform new = Revision.platform cur
    ∧ Revision.content new = newContent
    ∧ (∀ i r, revisions s !! i = Some r → revisions t !! i = Some r).
Proof.
  intros Hcur Hsel.
  destruct (handleApplySuggestions_settled Date_now new_Date s cur Hcur Hsel)
    as (call & s1 & k & Hawait & -> & _ & Hok).
  unfold dispatchAsync. rewrite Hawait. simpl. rewrite Hok.
  match goal with
  | |- context [commit s ?after] =>
      destruct (commit_frame s after) as (Happ & _)
  end.
  simpl in Happ.
  eexists. split; [exact Happ |].
  split; [rewrite currentRevision_last; simpl in *; rewrite Happ; apply last_snoc |].
  do 2 (split; [done |]).
  intros i r Hi. simpl in *. rewrite Happ. by apply lookup_app_l_Some.
Qed.

Lemma applySelected_frame_witness :
  ∃ new,
    revisions (dispatchAsync (handleApplySuggestions 1700000010000 1700000010001)
                 (Fulfilled "Long ago...") afterSelect)
    = revisions afterSelect ++ [new]
    ∧ Revision.platform new = Generic.
Proof.
  destruct (applySelected_frame 1700000010000 1700000010001 "Long ago..."
              afterSelect
              (Revision.mk "1700000000000"
                 "Once upon a time there was a draft about X, long enough to review."
                 1700000000000 Generic))
    as (new & Hrev & _ & Hplat & _).
  - vm_compute. reflexivity.
  - intros Hempty. vm_compute in Hempty. discriminate Hempty.
  - exists new. split; [exact Hrev | exact Hplat].
Defined.

(** ** The history reset *)

Lemma inPlace_length (h : State → State) (s : State) :
  inPlace h → length (revisions (h s)) = length (revisions s).
Proof.
  destruct 1;
    [apply handleContentChange_length | apply handleUndo_length
    | apply handleRedo_length].
Qed.

(** Where [prevRevisionsLengthRef] is at most the current length, as it
    is while the sequence has never shrunk: whatever the two stacks hold, a
    successful merge makes the sequence one longer and leaves both stacks
    empty, and so does the first draft; a manual edit, an undo or a redo
    keeps the length, the effect does not run and the handler's result
    stands as it is. *)
Theorem history_reset_on_growth_only (s : State) :
  prevRevisionsLengthRef s ≤ length (revisions s) →
  (∀ (Date_now new_Date : Z) (newContent : string) (cur : Revision.t),
     currentRevision s = Some cur →
     selectedSuggestions s ≠ ∅ →
     let t :=
       dispatchAsync (handleApplySuggestions Date_now new_Date)
         (Fulfilled newContent) s in
     length (revisions t) = S (length (revisions s))
     ∧ historyPast t = [] ∧ historyFuture t = [])
  ∧ (∀ (prompt : string) (files : list AttachedFile.t) (platform : Platform)
       (Date_now new_Date : Z) (content : string),
       revisions s = [] →
       let t :=
         dispatchAsync
           (handleGenerateDraft prompt files platform Date_now new_Date)
           (Fulfilled content) s in
       length (revisions t) = 1
       ∧ historyPast t = [] ∧ historyFuture t = [])
  ∧ (∀ h : State → State,
       inPlace h →
       length (revisions (h s)) = length (revisions s)
       ∧ effectRuns s (h s) = false
       ∧ dispatch h s = h s).
Proof.
  intros Href. split; [| split].
  - intros Date_now new_Date newContent cur Hcur Hsel.
    destruct (handleApplySuggestions_settled Date_now new_Date s cur Hcur Hsel)
      as (call & s1 & k & Hawait & -> & _ & Hok).
    unfold dispatchAsync. rewrite Hawait. simpl. rewrite Hok.
    rewrite commit_longer; simpl; rewrite ?length_app; simpl; [| lia ..].
    split; [lia | done].
  - intros prompt files platform Date_now new_Date content Hnil.
    unfold dispatchAsync, handleGenerateDraft. simpl.
    rewrite commit_longer; simpl; rewrite ?Hnil in *; simpl in *; [done | lia ..].
  - intros h Hh. pose proof (inPlace_length h s Hh) as Hlen.
    split; [exact Hlen |]. by apply commit_same_length.
Qed.

Lemma history_reset_on_growth_only_witness :
  historyPast afterEdit ≠ []
  ∧ historyPast
      (dispatchAsync (handleApplySuggestions 1700000010000 1700000010001)
         (Fulfilled "Long ago...") afterEdit) = []
  ∧ dispatch handleUndo afterEdit = handleUndo afterEdit.
Proof.
  assert (Href : prevRevisionsLengthRef afterEdit ≤ length (revisions afterEdit))
    by (vm_compute; lia).
  destruct (history_reset_on_growth_only afterEdit Href) as (Happly & _ & Hin).
  split; [vm_compute; discriminate |]. split.
  - refine (proj1 (proj2 (Happly 1700000010000%Z 1700000010001%Z "Long ago..."
                            (Revision.mk "1700000000000"
                               "Once upon a time there was a draft about X; it is now edited by hand."
                               1700000000000 Generic) _ _))).
    + vm_compute. reflexivity.
    + intros Hempty. vm_compute in Hempty. discriminate Hempty.
  - exact (proj2 (proj2 (Hin handleUndo inPlace_undo))).
Defined.

(** C5, at a failing input.  With two drafts in flight, the second
    answer arrives after a merge and shrinks the sequence from two
    revisions to one; the ref, assigned only where the effect resets, stays
    at two.  The user edits the new draft (one snapshot on the past stack)
    and merges a suggestion: the sequence grows from one to two, the test
    [revisions.length > prevRevisionsLengthRef.current] fails, and the past
    stack still holds the snapshot. *)
Theorem growth_after_late_draft_keeps_history :
  (length (revisions firstDraftMerged) = 2
   ∧ prevRevisionsLengthRef firstDraftMerged = 2)
  ∧ (length (revisions secondDraftLanded) = 1
     ∧ prevRevisionsLengthRef secondDraftLanded = 2)
  ∧ (length (revisions secondDraftEdited) = 1
     ∧ historyPast secondDraftEdited
       = ["X in brief: a second draft, short and sharp, but long enough."])
  ∧ (length (revisions secondDraftMerged) = 2
     ∧ historyPast secondDraftMerged
       = ["X in brief: a second draft, short and sharp, but long enough."]
     ∧ historyPast secondDraftMerged ≠ []).
Proof. vm_compute. repeat split; done. Qed.

(** ** The suggestion batch and the selection *)

(** The continuation of [fetchSuggestions] never writes the selection. *)
Lemma fetchSuggestions_selection (revision : option Revision.t) (s : State)
    (call : ServiceCall) (s1 : State)
    (k : Settled (list Suggestion.t) → State → State) :
  fetchSuggestions revision s = Await call s1 k →
  selectedSuggestions s1 = selectedSuggestions s
  ∧ ∀ r s', selectedSuggestions (settle k r s') = selectedSuggestions s'
            ∧ (∀ batch, r = Fulfilled batch →
                 suggestions (settle k r s') = batch).
Proof.
  unfold fetchSuggestions. destruct revision as [revision|]; [| done].
  case_bool_decide; [done |]. intros [= <- <- <-]. split; [done |].
  intros r s'. unfold settle.
  match goal with
  | |- context [commit s' ?after] =>
      destruct (commit_frame s' after) as (_ & -> & -> & _)
  end.
  split; [by destruct r |]. by intros batch ->.
Qed.

(** C1, at a failing input.  One suggestion of the first batch is
    selected; a later fetch, issued for the same revision, replaces the
    batch by another one.  The selection is still the old id, which names
    nothing in the new batch. *)
Theorem fetch_replaces_batch_keeps_selection :
  let fetch := fetchSuggestions (currentRevision afterSelect) afterSelect in
  let t := commit afterSelect (complete fetch (Fulfilled [suggestionB])) in
  is_Some (issued fetch)
  ∧ suggestions afterSelect = [suggestionA]
  ∧ selectedSuggestions afterSelect = {["1700000003000-0"]}
  ∧ suggestions t = [suggestionB]
  ∧ selectedSuggestions t = {["1700000003000-0"]}
  ∧ selectedSuggestions t ≠ ∅.
Proof.
  split; [by eexists |]. do 4 (split; [by vm_compute |]).
  intros Hempty. vm_compute in Hempty. discriminate Hempty.
Qed.



(** C9.  For a revision whose content is shorter than 50 code units, the
    handler returns at its guard: no service call is issued and the state,
    the batch included, is the one it was called on. *)
Theorem fetchSuggestions_below_threshold (revision : Revision.t) (s : State) :
  JS_length (Revision.content revision) < 50 →
  issued (fetchSuggestions (Some revision) s) = None
  ∧ (∀ r, dispatchAsync (fetchSuggestions (Some revision)) r s = s)
  ∧ fetchSuggestions (Some revision) s = Return s.
Proof.
  intros Hshort.
  assert (Hret : fetchSuggestions (Some revision) s = Return s).
  { unfold fetchSuggestions. by rewrite bool_decide_eq_true_2. }
  unfold dispatchAsync. rewrite Hret. simpl. split; [done |]. split; [| done].
  intros _. by apply commit_same_length.
Qed.

Lemma fetchSuggestions_below_threshold_witness :
  (JS_length (Revision.content shortRevision) = 40
   ∧ issued (fetchSuggestions (Some shortRevision) afterSelect) = None
   ∧ suggestions
       (dispatchAsync (fetchSuggestions (Some shortRevision))
          (Fulfilled [suggestionB]) afterSelect)
     = suggestions afterSelect)
  ∧ (JS_length (Revision.content accentedRevision) = 25
     ∧ String.length (Revision.content accentedRevision) = 50
     ∧ issued (fetchSuggestions (Some accentedRevision) afterSelect) = None).
Proof.
  assert (Hshort : JS_length (Revision.content shortRevision) < 50)
    by (vm_compute; lia).
  assert (Haccented : JS_length (Revision.content accentedRevision) < 50)
    by (vm_compute; lia).
  destruct (fetchSuggestions_below_threshold shortRevision afterSelect Hshort)
    as (Hnone & Hsame & _).
  destruct (fetchSuggestions_below_threshold accentedRevision afterSelect
              Haccented)
    as (Hnone' & _ & _).
  split.
  - split; [reflexivity |]. split; [exact Hnone |].
    exact (f_equal suggestions (Hsame (Fulfilled [suggestionB]))).
  - split; [reflexivity |]. split; [reflexivity | exact Hnone'].
Defined.

(** ** The first draft *)

(** C8 as stated fails: when the model answers with empty text, the
    service resolves to the empty string, no error is set, and the empty
    string becomes the content of the one revision. *)
Lemma empty_draft_is_installed :
  geminiService.generateInitialDraft (Fulfilled {| geminiService.text := "" |})
  = Fulfilled ""
  ∧ error emptyDraft = None
  ∧ Revision.content <$> revisions emptyDraft = [""].
Proof. by vm_compute. Qed.

(** C8, amended.  The draft fails exactly when the model call is
    rejected: the message is set and the sequence, the batch, the
    selection and both stacks are as before.  When the call resolves, its
    text, empty or not, becomes the content of the single revision, batch
    and selection are emptied and no error is set. *)
Theorem startDocument_outcomes
    (prompt : string) (files : list AttachedFile.t) (platform : Platform)
    (Date_now new_Date : Z)
    (result : Settled geminiService.GenerateContentResponse) (s : State) :
  let t :=
    dispatchAsync (handleGenerateDraft prompt files platform Date_now new_Date)
      (geminiService.generateInitialDraft result) s in
  match result with
  | Rejected _ =>
      error t = Some draftFailed
      ∧ revisions t = revisions s
      ∧ suggestions t = suggestions s
      ∧ selectedSuggestions t = selectedSuggestions s
      ∧ historyPast t = historyPast s
      ∧ historyFuture t = historyFuture s
  | Fulfilled r =>
      error t = None
      ∧ revisions t =
          [Revision.mk (pretty Date_now) (geminiService.text r) new_Date platform]
      ∧ suggestions t = []
      ∧ selectedSuggestions t = ∅
  end.
Proof.
  unfold dispatchAsync, handleGenerateDraft. destruct result as [r | e]; simpl.
  - match goal with
    | |- context [commit s ?after] =>
        by destruct (commit_frame s after) as (-> & -> & -> & -> & _)
    end.
  - match goal with
    | |- context [commit s ?after] =>
        by rewrite (proj2 (commit_same_length s after eq_refl))
    end.
Qed.

(** ** Reachable states *)

(** X14.  On every reachable state the ref holds the current length; in
    particular it is never above it. *)
Lemma reachable_prevRevisionsLengthRef (s : State) :
  reachable s → prevRevisionsLengthRef s = length (revisions s).
Proof.
  induction 1 as [| ev s _ IH Hoff]; [done |].
  destruct ev; simpl in *.
  - apply bool_decide_eq_true_1 in Hoff.
    unfold dispatchAsync, handleGenerateDraft. simpl.
    destruct r as [content | e]; simpl.
    + rewrite commit_longer; simpl; lia.
    + match goal with
      | |- context [commit s ?after] =>
          by rewrite (proj2 (commit_same_length s after eq_refl))
      end.
  - destruct (currentRevision s) as [cur|]; [| done].
    unfold dispatchAsync, fetchSuggestions.
    case_bool_decide; simpl.
    + by rewrite (proj2 (commit_same_length s s eq_refl)).
    + destruct r; simpl;
        match goal with
        | |- context [commit s ?after] =>
            by rewrite (proj2 (commit_same_length s after eq_refl))
        end.
  - clear Hoff. unfold dispatchAsync, handleApplySuggestions.
    case_bool_decide; simpl;
      [by rewrite (proj2 (commit_same_length s s eq_refl)) |].
    destruct (currentRevision s) as [cur|]; simpl;
      [| by rewrite (proj2 (commit_same_length s s eq_refl))].
    destruct r as [newContent | e]; simpl.
    + rewrite commit_longer; simpl; rewrite ?length_app; simpl; lia.
    + match goal with
      | |- context [commit s ?after] =>
          by rewrite (proj2 (commit_same_length s after eq_refl))
      end.
  - by rewrite dispatch_same_length.
  - clear Hoff.
    rewrite dispatch_same_length by apply handleContentChange_length.
    rewrite handleContentChange_length. unfold handleContentChange.
    destruct (currentRevision s); [| done]. by case_bool_decide.
  - clear Hoff. rewrite dispatch_same_length by apply handleUndo_length.
    rewrite handleUndo_length. unfold handleUndo.
    case_bool_decide; [done |].
    destruct (currentRevision s); [| done].
    by destruct (historyPast s !! _).
  - clear Hoff. rewrite dispatch_same_length by apply handleRedo_length.
    rewrite handleRedo_length. unfold handleRedo.
    case_bool_decide; [done |].
    destruct (currentRevision s); [| done].
    by destruct (historyFuture s !! _).
  - by rewrite dispatch_same_length.
Qed.

(** * Further properties of the handlers *)

(** ** Selection *)

(** X1.  Toggling the same id twice in a row gives back the state, whether the
    id was selected or not. *)
Theorem toggle_twice_restores (suggestionId : string) (s : State) :
  dispatch (handleToggleSuggestion suggestionId)
    (dispatch (handleToggleSuggestion suggestionId) s) = s.
Proof.
  rewrite !dispatch_same_length by done.
  unfold handleToggleSuggestion, updSelectedSuggestions.
  destruct s as [revs sugg sel gen fet msg err past fut lst prv]. simpl.
  unfold setSelectedSuggestions. simpl. f_equal.
  destruct (decide (suggestionId ∈ sel)) as [Hin | Hout].
  - rewrite (bool_decide_eq_true_2 _ Hin).
    rewrite bool_decide_eq_false_2
      by (rewrite elem_of_difference, elem_of_singleton; tauto).
    apply set_eq. intros x.
    rewrite elem_of_union, elem_of_difference, elem_of_singleton.
    destruct (decide (x = suggestionId)) as [-> | Hne]; tauto.
  - rewrite (bool_decide_eq_false_2 _ Hout).
    rewrite bool_decide_eq_true_2
      by (rewrite elem_of_union, elem_of_singleton; tauto).
    apply set_eq. intros x.
    rewrite elem_of_difference, elem_of_union, elem_of_singleton.
    destruct (decide (x = suggestionId)) as [-> | Hne]; tauto.
Qed.

(** ** The undo history *)

Lemma handleUndo_nothing (s : State) :
  historyPast s = [] ∨ currentRevision s = None → handleUndo s = s.
Proof.
  unfold handleUndo. intros [Hpast | Hcur].
  - by rewrite Hpast.
  - rewrite Hcur. by case_bool_decide.
Qed.

Lemma handleRedo_nothing (s : State) :
  historyFuture s = [] ∨ currentRevision s = None → handleRedo s = s.
Proof.
  unfold handleRedo. intros [Hfut | Hcur].
  - by rewrite Hfut.
  - rewrite Hcur. by case_bool_decide.
Qed.

Lemma dispatch_handleUndo (s : State) : dispatch handleUndo s = handleUndo s.
Proof. apply dispatch_same_length, handleUndo_length. Qed.

Lemma dispatch_handleRedo (s : State) : dispatch handleRedo s = handleRedo s.
Proof. apply dispatch_same_length, handleRedo_length. Qed.

Lemma currentRevision_snoc (s : State) (init : list Revision.t)
    (cur : Revision.t) :
  revisions s = init ++ [cur] → currentRevision s = Some cur.
Proof. intros Hrev. apply currentRevision_Some. eauto. Qed.

(** X2.  Redo followed at once by undo gives back the state, when there is
    something to redo. *)
Theorem redo_undo_restores_state (s : State) (cur : Revision.t) :
  currentRevision s = Some cur →
  historyFuture s ≠ [] →
  dispatch handleUndo (dispatch handleRedo s) = s.
Proof.
  intros Hcur Hne. rewrite dispatch_handleUndo, dispatch_handleRedo.
  apply currentRevision_Some in Hcur as [init Hrev].
  destruct (historyFuture s) as [|nextContent future] eqn:Hfut; [done |].
  rewrite (handleRedo_Some _ _ _ _ _ Hrev Hfut).
  erewrite handleUndo_Some by (simpl; reflexivity).
  destruct s, cur; simpl in *. by subst.
Qed.

Lemma redo_undo_restores_state_witness :
  dispatch handleUndo
    (dispatch handleRedo (dispatch handleUndo afterEdit))
  = dispatch handleUndo afterEdit.
Proof.
  refine (redo_undo_restores_state (dispatch handleUndo afterEdit)
            (Revision.mk "1700000000000"
               "Once upon a time there was a draft about X, long enough to review."
               1700000000000 Generic) _ _).
  - vm_compute. reflexivity.
  - vm_compute. discriminate.
Defined.

Lemma timeline_handleUndo (s : State) : timeline (handleUndo s) = timeline s.
Proof.
  destruct (currentRevision s) as [cur|] eqn:Hcur;
    [| by rewrite handleUndo_nothing by auto].
  destruct (historyPast s) as [|previousContent past _] eqn:Hpast using rev_ind;
    [by rewrite handleUndo_nothing by auto |].
  pose proof Hcur as [init Hrev]%currentRevision_Some.
  rewrite (handleUndo_Some _ _ _ _ _ Hrev Hpast).
  unfold timeline. rewrite Hcur, Hpast.
  erewrite currentRevision_snoc by (simpl; reflexivity).
  simpl. by rewrite <- app_assoc.
Qed.

Lemma timeline_handleRedo (s : State) : timeline (handleRedo s) = timeline s.
Proof.
  destruct (currentRevision s) as [cur|] eqn:Hcur;
    [| by rewrite handleRedo_nothing by auto].
  destruct (historyFuture s) as [|nextContent future] eqn:Hfut;
    [by rewrite handleRedo_nothing by auto |].
  pose proof Hcur as [init Hrev]%currentRevision_Some.
  rewrite (handleRedo_Some _ _ _ _ _ Hrev Hfut).
  unfold timeline. rewrite Hcur, Hfut.
  erewrite currentRevision_snoc by (simpl; reflexivity).
  simpl. by rewrite <- app_assoc.
Qed.

(** X3.  Undo and redo only move the cursor: the texts of the past stack, the
    live content and the future stack, read in this order, are the same
    list before and after, with or without anything to undo or redo. *)
Theorem undo_redo_preserve_timeline (s : State) :
  timeline (dispatch handleUndo s) = timeline s
  ∧ timeline (dispatch handleRedo s) = timeline s.
Proof.
  rewrite dispatch_handleUndo, dispatch_handleRedo.
  split; [apply timeline_handleUndo | apply timeline_handleRedo].
Qed.

Lemma undo_all (n : nat) (s : State) :
  is_Some (currentRevision s) →
  length (historyPast s) = n →
  let t := Nat.iter n (dispatch handleUndo) s in
  historyPast t = [] ∧ is_Some (currentRevision t) ∧ timeline t = timeline s.
Proof.
  revert s. induction n as [|n IH]; intros s Hcur Hlen.
  - simpl. by destruct (historyPast s).
  - rewrite Nat.iter_succ_r. destruct Hcur as [cur Hcur].
    destruct (historyPast s) as [|previousContent past _] eqn:Hpast using rev_ind;
      [done |].
    pose proof Hcur as [init Hrev]%currentRevision_Some.
    rewrite length_app in Hlen. simpl in Hlen.
    destruct (IH (dispatch handleUndo s)) as (Hnil & Hsome & Htl).
    + rewrite dispatch_handleUndo, (handleUndo_Some _ _ _ _ _ Hrev Hpast).
      erewrite currentRevision_snoc by (simpl; reflexivity). by eexists.
    + rewrite dispatch_handleUndo, (handleUndo_Some _ _ _ _ _ Hrev Hpast).
      simpl. lia.
    + split; [exact Hnil |]. split; [exact Hsome |].
      rewrite Htl, dispatch_handleUndo. apply timeline_handleUndo.
Qed.

(** X4.  Undoing once per snapshot of the past stack ends on the oldest text
    of the history with the past stack empty, loses none of the texts, and
    a further undo changes nothing. *)
Theorem undo_to_oldest (s : State) :
  is_Some (currentRevision s) →
  let t := Nat.iter (length (historyPast s)) (dispatch handleUndo) s in
  historyPast t = []
  ∧ Revision.content <$> currentRevision t = head (timeline s)
  ∧ timeline t = timeline s
  ∧ dispatch handleUndo t = t.
Proof.
  intros Hcur.
  destruct (undo_all (length (historyPast s)) s Hcur eq_refl)
    as (Hnil & [cur' Hcur'] & Htl).
  simpl. split; [exact Hnil |]. split; [| split; [exact Htl |]].
  - rewrite <- Htl. unfold timeline. by rewrite Hcur', Hnil.
  - rewrite dispatch_handleUndo. apply handleUndo_nothing. by left.
Qed.

Lemma undo_to_oldest_witness :
  Revision.content <$>
    currentRevision
      (Nat.iter (length (historyPast afterEdit)) (dispatch handleUndo) afterEdit)
  = head (timeline afterEdit).
Proof.
  refine (proj1 (proj2 (undo_to_oldest afterEdit _))).
  vm_compute. by eexists.
Defined.

(** X5.  A burst of typing is one undo step.  When the first edit of a run
    comes more than 1000 ms after the last snapshot and every later one at
    most 1000 ms after the first, the run pushes the one snapshot taken
    before it, and a single undo brings back the content the revision had
    before the run. *)
Theorem undo_after_burst (s : State) (cur : Revision.t) (newContent : string)
    (now : Z) (rest : list (string * Z)) :
  currentRevision s = Some cur →
  (1000 < now - lastSaveTimeRef s)%Z →
  Forall (λ e, (e.2 - now ≤ 1000)%Z) rest →
  let typed := recordEdits ((newContent, now) :: rest) s in
  historyPast typed = historyPast s ++ [Revision.content cur]
  ∧ historyFuture typed = []
  ∧ Revision.content <$> currentRevision typed
    = last (newContent :: rest.*1)
  ∧ Revision.content <$> currentRevision (dispatch handleUndo typed)
    = Some (Revision.content cur).
Proof.
  intros Hcur Hgap Hin.
  destruct (handleContentChange_outside_window newContent now s cur Hcur Hgap)
    as (Hpast & Hfut & Hlast & Hcur').
  destruct (recordEdits_inside_window rest
              (dispatch (handleContentChange newContent now) s))
    as (Hp & Hf & Hl & [cur2 Hcur2] & Hc).
  { by eexists. }
  { by rewrite Hlast. }
  simpl in *. rewrite Hp, Hf, Hpast, Hfut.
  do 2 (split; [done |]). split.
  - destruct (last (rest.*1)) as [c|] eqn:Hlastc.
    + rewrite (Hc c eq_refl). symmetry.
      destruct (rest.*1) as [|x l]; [done |]. exact Hlastc.
    + apply last_None in Hlastc. rewrite Hlastc. simpl.
      apply fmap_nil_inv in Hlastc as ->. simpl. by rewrite Hcur'.
  - pose proof Hcur2 as [init Hrev]%currentRevision_Some.
    rewrite dispatch_handleUndo.
    erewrite handleUndo_Some by (first [exact Hrev | by rewrite Hp, Hpast]).
    erewrite currentRevision_snoc by (simpl; reflexivity). done.
Qed.

Lemma undo_after_burst_witness :
  Revision.content <$>
    currentRevision
      (dispatch handleUndo
         (recordEdits
            [("O", 1700000005000%Z); ("On", 1700000005300%Z);
             ("Onc", 1700000005900%Z)]
            afterDraft))
  = Some "Once upon a time there was a draft about X, long enough to review.".
Proof.
  refine (proj2 (proj2 (proj2
            (undo_after_burst afterDraft
               (Revision.mk "1700000000000"
                  "Once upon a time there was a draft about X, long enough to review."
                  1700000000000 Generic)
               "O" 1700000005000%Z
               [("On", 1700000005300%Z); ("Onc", 1700000005900%Z)] _ _ _)))).
  - vm_compute. reflexivity.
  - vm_compute. reflexivity.
  - repeat constructor; vm_compute; discriminate.
Defined.

(** ** The asynchronous handlers *)

Lemma commit_flags (before after : State) :
  isGeneratingDraft (commit before after) = isGeneratingDraft after
  ∧ isFetchingSuggestions (commit before after) = isFetchingSuggestions after.
Proof.
  unfold commit, resetHistoryEffect.
  destruct (effectRuns before after); [case_bool_decide |]; done.
Qed.

Lemma userEvent_flags (ev : Event) (s : State) :
  userEvent ev = true →
  isGeneratingDraft (step ev s) = isGeneratingDraft s
  ∧ isFetchingSuggestions (step ev s) = isFetchingSuggestions s.
Proof.
  destruct ev; try discriminate; intros _; simpl; unfold dispatch;
    rewrite (proj1 (commit_flags _ _)), (proj2 (commit_flags _ _)).
  - done.
  - unfold handleContentChange.
    destruct (currentRevision s); [| done]. by case_bool_decide.
  - unfold handleUndo. case_bool_decide; [done |].
    destruct (currentRevision s); [| done].
    by destruct (historyPast s !! _).
  - unfold handleRedo. case_bool_decide; [done |].
    destruct (currentRevision s); [| done].
    by destruct (historyFuture s !! _).
  - done.
Qed.

Lemma userEvents_flags (evs : list Event) (s : State) :
  Forall (λ ev, userEvent ev = true) evs →
  isGeneratingDraft (foldl (λ s ev, step ev s) s evs) = isGeneratingDraft s
  ∧ isFetchingSuggestions (foldl (λ s ev, step ev s) s evs)
    = isFetchingSuggestions s.
Proof.
  revert s. induction evs as [|ev evs IH]; intros s Hall; [done |].
  apply Forall_cons in Hall as [Hev Hall]. simpl.
  destruct (IH (step ev s) Hall) as [-> ->]. by apply userEvent_flags.
Qed.

(** X12.  Each asynchronous handler raises its busy flag when it issues
    its call, the flag is still raised after any toggling, typing, undo,
    redo or closing of the error box, and the handler's own settlement
    lowers it, on success and on failure and on whatever state it resumes,
    a state where another call of the same kind is still out included:
    [isGeneratingDraft] for the draft and the merge, [isFetchingSuggestions]
    for the fetch. *)
Theorem busy_flags_released
    (prompt : string) (files : list AttachedFile.t) (platform : Platform)
    (Date_now new_Date : Z) (revision : option Revision.t) (s : State) :
  releases isGeneratingDraft
    (handleGenerateDraft prompt files platform Date_now new_Date s)
  ∧ releases isGeneratingDraft (handleApplySuggestions Date_now new_Date s)
  ∧ releases isFetchingSuggestions (fetchSuggestions revision s).
Proof.
  split; [| split].
  - split; [done |]. split.
    + intros evs Hevs. by rewrite (proj1 (userEvents_flags evs _ Hevs)).
    + intros r s'. unfold settle.
      rewrite (proj1 (commit_flags _ _)). by destruct r.
  - unfold handleApplySuggestions. case_bool_decide; [done |].
    destruct (currentRevision s) as [cur|]; [| done].
    split; [done |]. split.
    + intros evs Hevs. by rewrite (proj1 (userEvents_flags evs _ Hevs)).
    + intros r s'. unfold settle.
      rewrite (proj1 (commit_flags _ _)). by destruct r.
  - unfold fetchSuggestions. destruct revision as [revision|]; [| done].
    case_bool_decide; [done |].
    split; [done |]. split.
    + intros evs Hevs. by rewrite (proj2 (userEvents_flags evs _ Hevs)).
    + intros r s'. unfold settle.
      rewrite (proj2 (commit_flags _ _)). by destruct r.
Qed.

(** X13.  A suggestion fetch is silent.  However it settles, it leaves the
    revisions, the selection, the error message and both stacks as it finds
    them; a rejected fetch leaves the batch too, a fulfilled one installs
    the new batch whole. *)
Theorem fetch_settles_silently (revision : option Revision.t) (s : State)
    (call : ServiceCall) (s1 : State)
    (k : Settled (list Suggestion.t) → State → State) :
  fetchSuggestions revision s = Await call s1 k →
  ∀ r s',
    let t := settle k r s' in
    revisions t = revisions s'
    ∧ selectedSuggestions t = selectedSuggestions s'
    ∧ error t = error s'
    ∧ historyPast t = historyPast s'
    ∧ historyFuture t = historyFuture s'
    ∧ suggestions t =
        match r with
        | Fulfilled newSuggestions => newSuggestions
        | Rejected _ => suggestions s'
        end.
Proof.
  unfold fetchSuggestions. destruct revision as [revision|]; [| done].
  case_bool_decide; [done |]. intros [= <- <- <-] r s'. unfold settle.
  destruct r as [newSuggestions | e]; simpl;
    match goal with
    | |- context [commit s' ?after] =>
        by rewrite (proj2 (commit_same_length s' after eq_refl))
    end.
Qed.

Lemma fetch_settles_silently_witness :
  match fetchSuggestions (currentRevision afterSelect) afterSelect with
  | Return _ => False
  | Await _ s1 k =>
      error (settle k (Rejected "offline") s1) = None
      ∧ suggestions (settle k (Rejected "offline") s1) = [suggestionA]
  end.
Proof.
  destruct (fetchSuggestions (currentRevision afterSelect) afterSelect)
    as [s0 | call s1 k] eqn:Hfetch.
  - vm_compute in Hfetch. discriminate Hfetch.
  - destruct (fetch_settles_silently _ _ _ _ _ Hfetch (Rejected "offline") s1)
      as (_ & _ & Herr & _ & _ & Hsug).
    vm_compute in Hfetch. injection Hfetch as <- <- <-.
    split; [rewrite Herr | rewrite Hsug]; vm_compute; reflexivity.
Defined.

(** X10.  With nothing selected, or with no revision, the merge handler returns
    at its guard: no call goes out and the state is untouched, error
    message and overlay flag included. *)
Theorem apply_without_selection_does_nothing (Date_now new_Date : Z)
    (s : State) :
  selectedSuggestions s = ∅ ∨ revisions s = [] →
  issued (handleApplySuggestions Date_now new_Date s) = None
  ∧ ∀ r, dispatchAsync (handleApplySuggestions Date_now new_Date) r s = s.
Proof.
  intros Hguard.
  assert (Hret : handleApplySuggestions Date_now new_Date s = Return s).
  { unfold handleApplySuggestions. destruct Hguard as [Hsel | Hrev].
    - by rewrite bool_decide_eq_true_2 by (by apply size_0_empty).
    - rewrite (proj2 (currentRevision_None s) Hrev). by case_bool_decide. }
  unfold dispatchAsync. rewrite Hret. simpl. split; [done |].
  intros _. by apply commit_same_length.
Qed.

Lemma apply_without_selection_does_nothing_witness :
  dispatchAsync (handleApplySuggestions 1700000010000 1700000010001)
    (Fulfilled "Never asked for.") afterDraft
  = afterDraft.
Proof.
  refine (proj2 (apply_without_selection_does_nothing 1700000010000
                   1700000010001 afterDraft _) _).
  left. vm_compute. reflexivity.
Defined.

(** X11.  What the merge is asked to apply: the suggestions of the current batch
    whose id is selected, in batch order, sent with the content and the
    platform of the current revision.  Selected ids that name nothing in
    the batch add nothing; if all are such, the call still goes out, with
    an empty list of changes. *)
Theorem apply_call_carries_selection (Date_now new_Date : Z) (s : State)
    (cur : Revision.t) :
  currentRevision s = Some cur →
  selectedSuggestions s ≠ ∅ →
  ∃ changes,
    issued (handleApplySuggestions Date_now new_Date s)
    = Some (applySuggestions (Revision.content cur) changes
              (Revision.platform cur))
    ∧ changes `sublist_of` suggestions s
    ∧ (∀ x, x ∈ changes ↔
              x ∈ suggestions s ∧ Suggestion.id x ∈ selectedSuggestions s)
    ∧ ((∀ x, x ∈ suggestions s → Suggestion.id x ∉ selectedSuggestions s) →
       changes = []).
Proof.
  intros Hcur Hsel. apply_started Hcur Hsel. simpl.
  eexists. split; [reflexivity |]. split; [apply sublist_filter |]. split.
  - intros x. rewrite list_elem_of_filter. tauto.
  - intros Hstale.
    destruct (filter _ (suggestions s)) as [|x l] eqn:Hfilter; [done |].
    assert (Hx : x ∈ filter (λ x, Suggestion.id x ∈ selectedSuggestions s)
                   (suggestions s))
      by (rewrite Hfilter; apply list_elem_of_here).
    apply list_elem_of_filter in Hx as [Hin Hbatch].
    by destruct (Hstale x Hbatch).
Qed.

Lemma apply_call_carries_selection_witness :
  ∃ changes,
    issued (handleApplySuggestions 1700000010000 1700000010001 staleToggled)
    = Some (applySuggestions
              "Once upon a time there was a draft about X, long enough to review."
              changes Generic)
    ∧ changes `sublist_of` [suggestionA].
Proof.
  destruct (apply_call_carries_selection 1700000010000 1700000010001
              staleToggled
              (Revision.mk "1700000000000"
                 "Once upon a time there was a draft about X, long enough to review."
                 1700000000000 Generic))
    as (changes & Hcall & Hsub & _).
  - vm_compute. reflexivity.
  - intros Hempty. vm_compute in Hempty. discriminate Hempty.
  - exists changes. split; [exact Hcall | exact Hsub].
Defined.

(** ** What the events do to the sequence of revisions *)

Lemma revisions_commit (before after : State) :
  revisions (commit before after) = revisions after.
Proof. apply (commit_frame before after). Qed.

Lemma inPlace_shape (h : State → State) (s : State) :
  inPlace h →
  h s = s
  ∨ ∃ init cur c,
      revisions s = init ++ [cur]
      ∧ revisions (h s) = init ++ [Revision.with_content c cur]
      ∧ suggestions (h s) = suggestions s
      ∧ selectedSuggestions (h s) = selectedSuggestions s
      ∧ error (h s) = error s.
Proof.
  intros Hh.
  destruct (currentRevision s) as [cur|] eqn:Hcur.
  - pose proof Hcur as [init Hrev]%currentRevision_Some.
    destruct Hh as [newContent now | |].
    + right. exists init, cur, newContent. split; [exact Hrev |].
      rewrite (handleContentChange_Some _ _ _ _ _ Hrev).
      by case_bool_decide.
    + destruct (historyPast s) as [|previousContent past _] eqn:Hpast
        using rev_ind; [left; apply handleUndo_nothing; by left |].
      right. exists init, cur, previousContent. split; [exact Hrev |].
      by rewrite (handleUndo_Some _ _ _ _ _ Hrev Hpast).
    + destruct (historyFuture s) as [|nextContent future] eqn:Hfut;
        [left; apply handleRedo_nothing; by left |].
      right. exists init, cur, nextContent. split; [exact Hrev |].
      by rewrite (handleRedo_Some _ _ _ _ _ Hrev Hfut).
  - left. destruct Hh as [newContent now | |].
    + unfold handleContentChange. by rewrite Hcur.
    + apply handleUndo_nothing. by right.
    + apply handleRedo_nothing. by right.
Qed.

(** The three things an event of the editor can do to the sequence: leave
    it, replace the content of its last revision, or append a revision on
    the platform of the last one. *)
Lemma step_shape (ev : Event) (s : State) :
  editorEvent ev = true →
  revisions (step ev s) = revisions s
  ∨ (∃ init cur c,
       revisions s = init ++ [cur]
       ∧ revisions (step ev s) = init ++ [Revision.with_content c cur])
  ∨ (∃ init cur new,
       revisions s = init ++ [cur]
       ∧ revisions (step ev s) = revisions s ++ [new]
       ∧ Revision.platform new = Revision.platform cur).
Proof.
  assert (Hin : ∀ h, inPlace h →
            revisions (dispatch h s) = revisions s
            ∨ ∃ init cur c,
                revisions s = init ++ [cur]
                ∧ revisions (dispatch h s)
                  = init ++ [Revision.with_content c cur]).
  { intros h Hh. rewrite (dispatch_same_length h) by by apply inPlace_length.
    destruct (inPlace_shape h s Hh) as [-> | (init & cur & c & H1 & H2 & _)];
      [by left | right; eauto]. }
  destruct ev; simpl; [done | | | | | | |]; intros _.
  - left. destruct (currentRevision s) as [cur|]; [| done].
    unfold dispatchAsync. rewrite revisions_commit.
    unfold fetchSuggestions. case_bool_decide; [done |]. by destruct r.
  - unfold dispatchAsync. rewrite revisions_commit.
    unfold handleApplySuggestions. case_bool_decide; [by left |].
    destruct (currentRevision s) as [cur|] eqn:Hcur; [| by left].
    destruct r as [newContent | e]; [| by left].
    right. right. apply currentRevision_Some in Hcur as [init Hrev].
    eexists init, cur, _. split; [exact Hrev |]. simpl. by split.
  - left. unfold dispatch. by rewrite revisions_commit.
  - destruct (Hin _ (inPlace_change newContent now)); auto.
  - destruct (Hin _ inPlace_undo); auto.
  - destruct (Hin _ inPlace_redo); auto.
  - left. unfold dispatch. by rewrite revisions_commit.
Qed.

(** X8.  Typing, undo and redo write nothing but the content of the current
    revision (and the history): its id, timestamp and platform stay, the
    earlier revisions stay, and the batch, the selection and the error
    message are not touched, so suggestions computed for the old text
    survive an edit. *)
Theorem manual_edits_touch_only_content (h : State → State) (s : State)
    (cur : Revision.t) :
  inPlace h →
  currentRevision s = Some cur →
  let t := dispatch h s in
  ∃ c,
    revisions t = slice_0_m1 (revisions s) ++ [Revision.with_content c cur]
    ∧ currentRevision t = Some (Revision.with_content c cur)
    ∧ suggestions t = suggestions s
    ∧ selectedSuggestions t = selectedSuggestions s
    ∧ error t = error s.
Proof.
  intros Hh Hcur. simpl.
  rewrite (dispatch_same_length h) by by apply inPlace_length.
  pose proof Hcur as [init Hrev]%currentRevision_Some.
  destruct (inPlace_shape h s Hh)
    as [-> | (init' & cur' & c & Hrev' & Hnew & Hsug & Hsel & Herr)].
  - exists (Revision.content cur).
    replace (Revision.with_content (Revision.content cur) cur) with cur
      by by destruct cur.
    by rewrite Hrev, slice_0_m1_snoc.
  - rewrite Hrev in Hrev'. apply app_inj_tail in Hrev' as [<- <-].
    exists c. rewrite Hrev, slice_0_m1_snoc.
    split; [exact Hnew |]. split; [| done].
    by apply (currentRevision_snoc _ init).
Qed.

Lemma manual_edits_touch_only_content_witness :
  suggestions (dispatch (handleContentChange "Rewritten." 1700000005000) afterSelect)
  = [suggestionA]
  ∧ Revision.id <$>
      currentRevision
        (dispatch (handleContentChange "Rewritten." 1700000005000) afterSelect)
    = Some "1700000000000".
Proof.
  destruct (manual_edits_touch_only_content
              (handleContentChange "Rewritten." 1700000005000) afterSelect
              (Revision.mk "1700000000000"
                 "Once upon a time there was a draft about X, long enough to review."
                 1700000000000 Generic)
              (inPlace_change _ _))
    as (c & _ & Hcur & Hsug & _).
  - vm_compute. reflexivity.
  - split; [by rewrite Hsug | by rewrite Hcur].
Defined.

(** X9.  Nothing that happens on the editor screen shortens the sequence or
    rewrites its past: every revision keeps its place, its id, its
    timestamp and its platform, and every revision but the last keeps its
    content as well. *)
Theorem earlier_revisions_are_frozen (ev : Event) (s : State) :
  editorEvent ev = true →
  length (revisions s) ≤ length (revisions (step ev s))
  ∧ ∀ i r,
      revisions s !! i = Some r →
      ∃ r',
        revisions (step ev s) !! i = Some r'
        ∧ Revision.id r' = Revision.id r
        ∧ Revision.timestamp r' = Revision.timestamp r
        ∧ Revision.platform r' = Revision.platform r
        ∧ (S i < length (revisions s) → r' = r).
Proof.
  intros Hev.
  destruct (step_shape ev s Hev)
    as [-> | [(init & cur & c & Hrev & ->) | (init & cur & new & _ & -> & _)]].
  - split; [done |]. intros i r Hi. by exists r.
  - rewrite Hrev, !length_app. split; [done |]. intros i r Hi.
    destruct (decide (i < length init)) as [Hlt | Hge].
    + rewrite lookup_app_l in Hi by done.
      exists r. by rewrite lookup_app_l.
    + apply lookup_lt_Some in Hi as Hbound.
      rewrite length_app in Hbound. simpl in Hbound.
      assert (i = length init) as -> by lia.
      rewrite list_lookup_middle in Hi by done. injection Hi as <-.
      exists (Revision.with_content c cur).
      rewrite list_lookup_middle by done. simpl.
      do 4 (split; [done |]). lia.
  - rewrite length_app. split; [lia |]. intros i r Hi.
    exists r. by rewrite (lookup_app_l_Some _ _ _ _ Hi).
Qed.

Lemma earlier_revisions_are_frozen_witness :
  length (revisions afterSelect)
  ≤ length
      (revisions
         (step (ApplySuggestions 1700000010000 1700000010001
                  (Fulfilled "Long ago..."))
            afterSelect)).
Proof.
  refine (proj1 (earlier_revisions_are_frozen
                   (ApplySuggestions 1700000010000 1700000010001
                      (Fulfilled "Long ago..."))
                   afterSelect _)).
  reflexivity.
Defined.

(** ** Reachable states, continued *)

Lemma reachable_afterDraft : reachable afterDraft.
Proof.
  exact (reachable_step
           (GenerateDraft "Write about X" [] Generic
              1700000000000 1700000000000
              (Fulfilled "Once upon a time there was a draft about X, long enough to review."))
           initialState reachable_initial eq_refl).
Defined.

Lemma reachable_prevRevisionsLengthRef_witness :
  prevRevisionsLengthRef afterDraft = length (revisions afterDraft).
Proof. exact (reachable_prevRevisionsLengthRef afterDraft reachable_afterDraft). Defined.

Lemma step_allOnPlatform (ev : Event) (s : State) :
  (∃ p, allOnPlatform p s) → ∃ p, allOnPlatform p (step ev s).
Proof.
  intros [p Hall]. unfold allOnPlatform in *.
  destruct (editorEvent ev) eqn:Hev.
  - exists p.
    destruct (step_shape ev s Hev)
      as [-> | [(init & cur & c & Hrev & ->)
               | (init & cur & new & Hrev & -> & Hnew)]];
      [done | |]; rewrite Hrev in Hall; pose proof Hall as Hall';
      apply Forall_app in Hall' as [Hinit Hcur];
      apply (proj1 (Forall_singleton _ _)) in Hcur.
    + apply Forall_app. split; [done |]. apply Forall_singleton.
      simpl in *. exact Hcur.
    + rewrite Hrev. apply Forall_app. split; [done |].
      apply Forall_singleton. simpl in *. congruence.
  - destruct ev; try discriminate Hev. simpl.
    unfold dispatchAsync. rewrite revisions_commit.
    destruct r as [content | e]; simpl; [| by exists p].
    exists platform. by apply Forall_singleton.
Qed.

(** X15.  As long as each asynchronous handler runs from start to end
    before the next event, and the draft form is there only while there is
    no revision, a document stays on one platform: on every state reached
    in this way all revisions carry the same platform tag.  (Two drafts in
    flight at once are outside [reachable].) *)
Theorem reachable_one_platform (s : State) :
  reachable s → ∃ p, allOnPlatform p s.
Proof.
  induction 1 as [| ev s _ IH _].
  - exists Generic. constructor.
  - by apply step_allOnPlatform.
Qed.

Lemma reachable_afterMerge :
  reachable
    (step (ApplySuggestions 1700000010000 1700000010001
             (Fulfilled "Long ago..."))
       afterSelect).
Proof.
  apply reachable_step; [| reflexivity].
  change (reachable
            (step (ToggleSuggestion "1700000003000-0")
               (step (SuggestionsTimer (Fulfilled [suggestionA])) afterDraft))).
  apply reachable_step; [| reflexivity].
  apply reachable_step; [exact reachable_afterDraft | reflexivity].
Defined.

Lemma reachable_one_platform_witness :
  length
    (revisions
       (step (ApplySuggestions 1700000010000 1700000010001
                (Fulfilled "Long ago..."))
          afterSelect)) = 2
  ∧ ∃ p,
      allOnPlatform p
        (step (ApplySuggestions 1700000010000 1700000010001
                 (Fulfilled "Long ago..."))
           afterSelect).
Proof.
  split; [reflexivity |].
  exact (reachable_one_platform _ reachable_afterMerge).
Defined.

(** X16.  Before the first draft has arrived there is nothing to select, to
    apply, to undo or to redo: on a reachable state without a revision the
    batch, the selection and both stacks are empty. *)
Theorem nothing_before_first_draft (s : State) :
  reachable s →
  revisions s = [] →
  suggestions s = [] ∧ selectedSuggestions s = ∅
  ∧ historyPast s = [] ∧ historyFuture s = [].
Proof.
  induction 1 as [| ev s _ IH Hoff]; [done |]. intros Hnil.
  assert (Hedit : editorEvent ev = true → revisions s = []).
  { intros Hev.
    destruct (step_shape ev s Hev)
      as [Heq | [(init & cur & c & _ & Heq) | (init & cur & new & _ & Heq & _)]];
      rewrite Heq in Hnil; [done | |]; by destruct init, (revisions s). }
  destruct ev; simpl in Hoff;
    try (specialize (Hedit eq_refl); apply bool_decide_eq_true_1 in Hoff;
         by rewrite Hedit in Hoff).
  - apply bool_decide_eq_true_1, nil_length_inv in Hoff.
    revert Hnil. simpl. unfold dispatchAsync. rewrite revisions_commit.
    destruct r as [content | e]; [done |]. intros _. simpl.
    match goal with
    | |- context [commit s ?after] =>
        rewrite (proj2 (commit_same_length s after eq_refl))
    end.
    by apply IH.
  - specialize (Hedit eq_refl). simpl.
    rewrite (proj2 (currentRevision_None s) Hedit). by apply IH.
  - specialize (Hedit eq_refl). simpl. rewrite dispatch_same_length by done.
    by apply IH.
Qed.

Lemma nothing_before_first_draft_witness :
  suggestions
    (step (GenerateDraft "Write about X" [] Generic 1700000000000
             1700000000000 (Rejected "401"))
       initialState)
  = [].
Proof.
  refine (proj1 (nothing_before_first_draft _
                   (reachable_step
                      (GenerateDraft "Write about X" [] Generic 1700000000000
                         1700000000000 (Rejected "401"))
                      initialState reachable_initial eq_refl)
                   _)).
  vm_compute. reflexivity.
Defined.

(** X7.  The toolbar tells the truth: while there is a revision, the Undo
    button is enabled exactly when undo changes the state, and the Redo
    button exactly when redo does. *)
Theorem buttons_enabled_iff_effective (s : State) :
  is_Some (currentRevision s) →
  (canUndo s = true ↔ dispatch handleUndo s ≠ s)
  ∧ (canRedo s = true ↔ dispatch handleRedo s ≠ s).
Proof.
  intros [cur [init Hrev]%currentRevision_Some].
  rewrite dispatch_handleUndo, dispatch_handleRedo.
  unfold canUndo, canRedo. rewrite !bool_decide_eq_true. split.
  - destruct (historyPast s) as [|previousContent past _] eqn:Hpast
      using rev_ind.
    + rewrite handleUndo_nothing by auto. simpl. split; [lia | done].
    + rewrite (handleUndo_Some _ _ _ _ _ Hrev Hpast), length_app. simpl.
      split; [| lia]. intros _ Heq.
      apply (f_equal (λ t, length (historyPast t))) in Heq.
      simpl in Heq. rewrite Hpast, length_app in Heq. simpl in Heq. lia.
  - destruct (historyFuture s) as [|nextContent future] eqn:Hfut.
    + rewrite handleRedo_nothing by auto. simpl. split; [lia | done].
    + rewrite (handleRedo_Some _ _ _ _ _ Hrev Hfut). simpl.
      split; [| lia]. intros _ Heq.
      apply (f_equal (λ t, length (historyFuture t))) in Heq.
      simpl in Heq. rewrite Hfut in Heq. simpl in Heq. lia.
Qed.

Lemma buttons_enabled_iff_effective_witness :
  canUndo afterEdit = true ↔ dispatch handleUndo afterEdit ≠ afterEdit.
Proof.
  refine (proj1 (buttons_enabled_iff_effective afterEdit _)).
  vm_compute. by eexists.
Defined.

(** * Properties of the service layer *)

(** ** Suggestion ids *)

Lemma lacks_app (c : ascii) (a b : string) :
  lacks c (a +:+ b) ↔ lacks c a ∧ lacks c b.
Proof. induction a as [|x a IH]; simpl; [tauto | rewrite IH; tauto]. Qed.

Lemma lacks_pretty_N_go (x : N) (s : string) :
  lacks "-" s → lacks "-" (pretty_N_go x s).
Proof.
  revert s. induction (N.lt_wf_0 x) as [x _ IH]; intros s Hs.
  assert (x = 0 ∨ 0 < x)%N as [-> | Hpos] by lia.
  - by rewrite pretty_N_go_0.
  - rewrite pretty_N_go_step by done. apply IH; [by apply N.div_lt |].
    simpl. split; [| done]. unfold pretty_N_char. by repeat case_match.
Qed.

(** The decimal of a natural number has no dash in it. *)
Lemma lacks_pretty_nat (n : nat) : lacks "-" (pretty n).
Proof.
  unfold pretty, pretty_nat, pretty, pretty_N.
  case_decide; [by simpl | by apply lacks_pretty_N_go].
Qed.

(** Two strings cut at their last dash agree on what follows it. *)
Lemma after_last_dash (a a' b b' : string) :
  a +:+ String "-" b = a' +:+ String "-" b' →
  lacks "-" b → lacks "-" b' → b = b'.
Proof.
  revert a'. induction a as [|x a IH]; intros [|x' a'] Heq Hb Hb';
    simpl in Heq.
  - by injection Heq.
  - injection Heq as _ Hrest.
    rewrite Hrest in Hb. apply lacks_app in Hb as [_ [Hne _]]. done.
  - injection Heq as _ Hrest.
    rewrite <- Hrest in Hb'. apply lacks_app in Hb' as [_ [Hne _]]. done.
  - injection Heq as _ Hrest. by apply (IH a').
Qed.

(** X17.  The ids of a batch are pairwise different, whatever the clock says,
    also when every element reads the same millisecond, and also for the
    empty batch of a failed fetch. *)
Theorem batch_ids_unique
    (JSON_parse : string → option (list geminiService.SuggestionData))
    (Date_now : nat → Z)
    (result : Settled geminiService.GenerateContentResponse) :
  NoDup (Suggestion.id <$>
           geminiService.generateSuggestions JSON_parse Date_now result).
Proof.
  unfold geminiService.generateSuggestions.
  destruct result as [r | e]; [| constructor].
  destruct (JSON_parse (geminiService.text r)) as [data|]; [| constructor].
  apply NoDup_alt. intros i j x.
  unfold geminiService.with_ids.
  rewrite !list_lookup_fmap, !list_lookup_imap.
  destruct (data !! i) as [di|]; [| done].
  destruct (data !! j) as [dj|]; [| done].
  simpl. intros [= <-] [= Heq].
  apply after_last_dash in Heq; [| apply lacks_pretty_nat ..].
  by apply (inj pretty) in Heq.
Qed.

(** X18.  Apart from the ids the batch is the decoded array: same length, same
    order, same three texts in every element; a rejected call and an
    answer that does not parse both give the empty batch. *)
Theorem batch_keeps_decoded_texts
    (JSON_parse : string → option (list geminiService.SuggestionData))
    (Date_now : nat → Z)
    (result : Settled geminiService.GenerateContentResponse) :
  without_id <$> geminiService.generateSuggestions JSON_parse Date_now result
  = match result with
    | Fulfilled r => default [] (JSON_parse (geminiService.text r))
    | Rejected _ => []
    end.
Proof.
  unfold geminiService.generateSuggestions.
  destruct result as [r | e]; [| done].
  destruct (JSON_parse (geminiService.text r)) as [data|]; [| done].
  simpl. apply list_eq. intros i. unfold geminiService.with_ids.
  rewrite list_lookup_fmap, list_lookup_imap.
  by destruct (data !! i) as [[o c w]|].
Qed.

(** ** Attached files *)

Lemma String_split_lacks (sep : ascii) (s : string) :
  lacks sep s → geminiService.String_split sep s = [s].
Proof.
  induction s as [|c s IH]; [done |]. intros [Hne Hs]. simpl.
  rewrite decide_False by done. by rewrite IH.
Qed.

Lemma String_split_app (sep : ascii) (piece rest : string) :
  lacks sep piece →
  geminiService.String_split sep (piece +:+ String sep rest)
  = piece :: geminiService.String_split sep rest.
Proof.
  induction piece as [|c piece IH]; simpl.
  - intros _. by rewrite decide_True.
  - intros [Hne Hp]. rewrite decide_False by done. by rewrite IH.
Qed.

(** X19.  What is sent as the data of an attachment.  For a data URL, a header
    without comma, a comma, and a payload without comma, it is the
    payload.  If the payload itself has a comma, it is cut there and the
    rest is dropped.  If the content has no comma at all, there is no
    data. *)
Theorem fileToGenerativePart_data (name type header payload rest : string) :
  lacks "," header →
  lacks "," payload →
  geminiService.data
    (geminiService.fileToGenerativePart
       (AttachedFile.mk name type (header +:+ String "," payload)))
  = Some payload
  ∧ geminiService.data
      (geminiService.fileToGenerativePart
         (AttachedFile.mk name type
            (header +:+ String "," (payload +:+ String "," rest))))
    = Some payload
  ∧ geminiService.data
      (geminiService.fileToGenerativePart (AttachedFile.mk name type header))
    = None.
Proof.
  intros Hheader Hpayload. unfold geminiService.fileToGenerativePart. simpl.
  rewrite !String_split_app by done.
  rewrite (String_split_lacks _ payload), (String_split_lacks _ header)
    by done.
  done.
Qed.

Lemma fileToGenerativePart_data_witness :
  geminiService.data
    (geminiService.fileToGenerativePart
       (AttachedFile.mk "notes.txt" "text/plain"
          "data:text/plain;base64,SGVsbG8sIHdvcmxkIQ=="))
  = Some "SGVsbG8sIHdvcmxkIQ==".
Proof.
  refine (proj1 (fileToGenerativePart_data "notes.txt" "text/plain"
                   "data:text/plain;base64" "SGVsbG8sIHdvcmxkIQ==" "" _ _)).
  - vm_compute. intuition discriminate.
  - vm_compute. intuition discriminate.
Defined.

(** * Runs of edits, whatever their timing *)



